(** * SyncLater: the WebRTC signaling server (server/services/webrtc.ts)

    A shallow embedding of [WebRTCSignalingServer]: the room table
    [rooms : Map<string, Map<string, RoomParticipant>>], the message
    handlers and the close handler, followed by the properties of the
    room lifecycle, of the relays and of the room query. *)

From Stdlib Require Import String List Bool Arith Lia ZArith.
Import ListNotations.
Local Open Scope string_scope.
Local Open Scope list_scope.

(** ** JavaScript [Map] with string keys

    A [Map] iterates in insertion order, [set] on a key already present
    keeps the key's position, and [delete] drops the entry.  The order is
    observable here (the order of a broadcast, the [participants] array,
    the first match of a reverse lookup), so a map is the list of its
    entries in insertion order. *)

Module JsMap.
Section Ops.
Context {V : Type}.

Definition t := list (string * V).

Fixpoint get (k : string) (m : t) : option V :=
  match m with
  | [] => None
  | (k', v) :: m' => if String.eqb k k' then Some v else get k m'
  end.

Definition has (k : string) (m : t) : bool :=
  match get k m with Some _ => true | None => false end.

Fixpoint set (k : string) (v : V) (m : t) : t :=
  match m with
  | [] => [(k, v)]
  | (k', v') :: m' =>
      if String.eqb k k' then (k, v) :: m' else (k', v') :: set k v m'
  end.

Fixpoint delete (k : string) (m : t) : t :=
  match m with
  | [] => []
  | (k', v') :: m' =>
      if String.eqb k k' then m' else (k', v') :: delete k m'
  end.

Definition size (m : t) : nat := length m.
Definition keys (m : t) : list string := map fst m.
Definition values (m : t) : list V := map snd m.
Definition entries (m : t) : list (string * V) := m.

(** The keys of a [Map] are pairwise distinct. *)
Definition ok (m : t) : Prop := NoDup (keys m).

(** The entries kept when the key [k] is excluded. *)
Definition others (k : string) (m : t) : t :=
  filter (fun e => negb (String.eqb (fst e) k)) m.
End Ops.
Arguments t : clear implicits.
End JsMap.

(** ** Data *)

(** A [WebSocket] is compared by identity ([===]); its [readyState] changes
    outside the server and is read at each send. *)
Definition WebSocket := nat.

Inductive ReadyState := CONNECTING | OPEN | CLOSING | CLOSED.

Definition is_open (r : ReadyState) : bool :=
  match r with OPEN => true | _ => false end.

(** [data?: any], as produced by [JSON.parse] (numbers kept to integers). *)
#[warnings="-register-all"]
Inductive JSON :=
| JNull
| JBool (b : bool)
| JNumber (n : Z)
| JString (s : string)
| JArray (items : list JSON)
| JObject (fields : list (string * JSON)).

Definition truthy (j : JSON) : bool :=
  match j with
  | JNull => false
  | JBool b => b
  | JNumber n => negb (Z.eqb n 0)
  | JString s => negb (String.eqb s "")
  | JArray _ | JObject _ => true
  end.

(** [interface WebRTCMessage].  [type] is kept a string: the value comes from
    [JSON.parse] and [handleMessage] has a [default] branch. *)
Record WebRTCMessage := {
  msg_type : string;
  msg_roomId : option string;
  msg_data : option JSON;
  msg_userId : option string
}.

(** [interface RoomParticipant] *)
Record RoomParticipant := {
  userId : string;
  socket : WebSocket;
  metadata : JSON
}.

Definition Room := JsMap.t RoomParticipant.
Definition Rooms := JsMap.t Room.

(** The objects the server passes to [JSON.stringify] and sends. *)
Inductive ServerMessage :=
| UserJoined (user : string) (participantCount : nat)
| JoinedRoom (room : string) (participantCount : nat) (participants : list string)
| Offer (data : option JSON)
| Answer (data : option JSON)
| IceCandidate (data : option JSON)
| UserLeft (user : string) (participantCount : nat)
| Error (message : string).

(** One [socket.send]. *)
Definition Send := (WebSocket * ServerMessage)%type.

(** [!s] for [s?: string]: [undefined] and the empty string are falsy. *)
Definition present (s : option string) : option string :=
  match s with
  | Some x => if String.eqb x "" then None else Some x
  | None => None
  end.

(** ** Effects

    A method reads and updates [this.rooms], sends on sockets, and may throw
    (the non-null assertion in [handleJoinRoom]).  [value = None] is a thrown
    exception.

    The table is the store of the room objects and a room id is the
    reference to the object stored under it.  A room object is reachable
    only from the table: it is created by [new Map()] in the statement that
    stores it under its room id, and it is taken out of the table only when
    its size is 0 ([removeUserFromRoom]).  So a local [room] obtained from
    [this.rooms.get(roomId)], or an element of
    [Array.from(this.rooms.entries())], denotes the entry stored under
    [roomId] for as long as the room is listed and an empty map afterwards,
    and [room.set], [room.delete], [room.size], [room.keys()] and
    [room.entries()] read and update the table at [roomId]. *)

Record Outcome (A : Type) := {
  value : option A;
  table : Rooms;
  sent : list Send
}.
Arguments value {A} _.
Arguments table {A} _.
Arguments sent {A} _.

Definition Handler (A : Type) := Rooms -> Outcome A.

Definition ret {A} (a : A) : Handler A :=
  fun rooms => {| value := Some a; table := rooms; sent := [] |}.

Definition throw {A} : Handler A :=
  fun rooms => {| value := None; table := rooms; sent := [] |}.

Definition bind {A B} (m : Handler A) (k : A -> Handler B) : Handler B :=
  fun rooms =>
    let r1 := m rooms in
    match value r1 with
    | Some a =>
        let r2 := k a (table r1) in
        {| value := value r2; table := table r2; sent := sent r1 ++ sent r2 |}
    | None => {| value := None; table := table r1; sent := sent r1 |}
    end.

(** [try { m } catch { h }] *)
Definition try_catch {A} (m : Handler A) (h : Handler A) : Handler A :=
  fun rooms =>
    let r1 := m rooms in
    match value r1 with
    | Some _ => r1
    | None =>
        let r2 := h (table r1) in
        {| value := value r2; table := table r2; sent := sent r1 ++ sent r2 |}
    end.

Declare Scope handler_scope.
Delimit Scope handler_scope with handler.
Notation "x <- m ;; k" := (bind m (fun x => k))
  (at level 61, m at next level, right associativity) : handler_scope.
Notation "m ;; k" := (bind m (fun _ => k))
  (at level 61, right associativity) : handler_scope.
Local Open Scope handler_scope.

Definition get_rooms : Handler Rooms :=
  fun rooms => {| value := Some rooms; table := rooms; sent := [] |}.

Definition put_rooms (rooms' : Rooms) : Handler unit :=
  fun _ => {| value := Some tt; table := rooms'; sent := [] |}.

Definition socket_send (s : WebSocket) (m : ServerMessage) : Handler unit :=
  fun rooms => {| value := Some tt; table := rooms; sent := [(s, m)] |}.

Definition when (b : bool) (m : Handler unit) : Handler unit :=
  if b then m else ret tt.

Fixpoint for_each {A} (l : list A) (body : A -> Handler unit) : Handler unit :=
  match l with
  | [] => ret tt
  | a :: l' => body a ;; for_each l' body
  end.

(** [this.rooms.has], [this.rooms.get], [this.rooms.set], [this.rooms.delete] *)
Definition rooms_has (roomId : string) : Handler bool :=
  rooms <- get_rooms ;; ret (JsMap.has roomId rooms).

Definition rooms_get (roomId : string) : Handler (option Room) :=
  rooms <- get_rooms ;; ret (JsMap.get roomId rooms).

Definition rooms_set (roomId : string) (room : Room) : Handler unit :=
  rooms <- get_rooms ;; put_rooms (JsMap.set roomId room rooms).

Definition rooms_delete (roomId : string) : Handler unit :=
  rooms <- get_rooms ;; put_rooms (JsMap.delete roomId rooms).

(** The content of the room object that was read from the table under
    [roomId]: the entry while it is listed, and the empty map once the object
    has been taken out of the table. *)
Definition room_now (roomId : string) (rooms : Rooms) : Room :=
  match JsMap.get roomId rooms with
  | Some room => room
  | None => []
  end.

(** [room.size], [room.keys()], [room.entries()], [room.set(userId,
    participant)] and [room.delete(userId)] through the reference
    [room = this.rooms.get(roomId)]. *)
Definition room_size (roomId : string) : Handler nat :=
  rooms <- get_rooms ;; ret (JsMap.size (room_now roomId rooms)).

Definition room_keys (roomId : string) : Handler (list string) :=
  rooms <- get_rooms ;; ret (JsMap.keys (room_now roomId rooms)).

Definition room_entries (roomId : string) : Handler (list (string * RoomParticipant)) :=
  rooms <- get_rooms ;; ret (JsMap.entries (room_now roomId rooms)).

Definition room_update (roomId : string) (f : Room -> Room) : Handler unit :=
  rooms <- get_rooms ;;
  match JsMap.get roomId rooms with
  | Some room => put_rooms (JsMap.set roomId (f room) rooms)
  | None => ret tt
  end.

Definition room_set (roomId userId : string) (p : RoomParticipant) : Handler unit :=
  room_update roomId (JsMap.set userId p).

Definition room_delete (roomId userId : string) : Handler unit :=
  room_update roomId (JsMap.delete userId).

(** ** The server *)

Section Server.
(** [socket.readyState] at the time the handler runs. *)
Variable readyState : WebSocket -> ReadyState.

Definition socket_is (s : WebSocket) (e : string * RoomParticipant) : bool :=
  Nat.eqb (socket (snd e)) s.

(** [private sendToUser(socket, message)] *)
Definition sendToUser (s : WebSocket) (message : ServerMessage) : Handler unit :=
  when (is_open (readyState s)) (socket_send s message).

(** [private sendError(socket, error)] *)
Definition sendError (s : WebSocket) (error : string) : Handler unit :=
  sendToUser s (Error error).

(** [excludeUserIds.includes(userId)] *)
Definition includes (excludeUserIds : list string) (u : string) : bool :=
  existsb (String.eqb u) excludeUserIds.

(** [private broadcastToRoom(roomId, message, excludeUserIds)] *)
Definition broadcastToRoom (roomId : string) (message : ServerMessage)
    (excludeUserIds : list string) : Handler unit :=
  room <- rooms_get roomId ;;
  match room with
  | None => ret tt
  | Some room =>
      for_each (JsMap.entries room) (fun e =>
        when (negb (includes excludeUserIds (fst e))
              && is_open (readyState (socket (snd e))))
             (socket_send (socket (snd e)) message))
  end.

(** [private getUserIdBySocket(socket)]: the first match, rooms in table
    order and participants in room order. *)
Fixpoint first_user_of (s : WebSocket) (rooms : list Room) : string :=
  match rooms with
  | [] => ""
  | room :: rest =>
      match find (socket_is s) (JsMap.entries room) with
      | Some e => fst e
      | None => first_user_of s rest
      end
  end.

Definition getUserIdBySocket (s : WebSocket) : Handler string :=
  rooms <- get_rooms ;; ret (first_user_of s (JsMap.values rooms)).

(** [private handleJoinRoom(socket, message)] *)
Definition handleJoinRoom (s : WebSocket) (message : WebRTCMessage) : Handler unit :=
  match present (msg_roomId message), present (msg_userId message) with
  | Some roomId, Some userId =>
      has <- rooms_has roomId ;;
      when (negb has) (rooms_set roomId []) ;;
      room <- rooms_get roomId ;;
      match room with
      | None => throw
      | Some _ =>
          let participant :=
            {| userId := userId;
               socket := s;
               metadata := match msg_data message with
                           | Some d => if truthy d then d else JObject []
                           | None => JObject []
                           end |} in
          room_set roomId userId participant ;;
          size <- room_size roomId ;;
          broadcastToRoom roomId (UserJoined userId size) [userId] ;;
          size <- room_size roomId ;;
          ids <- room_keys roomId ;;
          sendToUser s
            (JoinedRoom roomId size
               (filter (fun id => negb (String.eqb id userId)) ids))
      end
  | _, _ => sendError s "Room ID and User ID are required"
  end.

(** [handleOffer], [handleAnswer] and [handleIceCandidate] differ in the
    [type] of the relayed object only. *)
Definition relay (wrap : option JSON -> ServerMessage)
    (s : WebSocket) (message : WebRTCMessage) : Handler unit :=
  match present (msg_roomId message) with
  | None => sendError s "Room ID is required"
  | Some roomId =>
      sender <- getUserIdBySocket s ;;
      broadcastToRoom roomId (wrap (msg_data message)) [sender]
  end.

Definition handleOffer := relay Offer.
Definition handleAnswer := relay Answer.
Definition handleIceCandidate := relay IceCandidate.

(** [private removeUserFromRoom(roomId, userId, socket)] *)
Definition removeUserFromRoom (roomId : option string) (userId : string)
    (s : WebSocket) : Handler unit :=
  match present roomId with
  | None => ret tt
  | Some roomId =>
      room <- rooms_get roomId ;;
      match room with
      | None => ret tt
      | Some _ =>
          room_delete roomId userId ;;
          size <- room_size roomId ;;
          broadcastToRoom roomId (UserLeft userId size) [userId] ;;
          size <- room_size roomId ;;
          when (Nat.eqb size 0) (rooms_delete roomId)
      end
  end.

(** [private handleLeaveRoom(socket, message)] *)
Definition handleLeaveRoom (s : WebSocket) (message : WebRTCMessage) : Handler unit :=
  userId <- match present (msg_userId message) with
            | Some userId => ret userId
            | None => getUserIdBySocket s
            end ;;
  removeUserFromRoom (msg_roomId message) userId s.

(** [private handleDisconnection(socket)].  The outer array is a snapshot of
    the room ids with their room objects; [Array.from(room.entries())] reads
    the room object when the loop reaches it, and the inner loop stops at
    the first participant that holds the socket ([break]). *)
Definition handleDisconnection (s : WebSocket) : Handler unit :=
  snapshot <- get_rooms ;;
  for_each (JsMap.entries snapshot) (fun '(roomId, _) =>
    entries <- room_entries roomId ;;
    match find (socket_is s) entries with
    | Some (userId, _) => removeUserFromRoom (Some roomId) userId s
    | None => ret tt
    end).

(** [private handleMessage(socket, message)] *)
Definition handleMessage (s : WebSocket) (message : WebRTCMessage) : Handler unit :=
  let type := msg_type message in
  if String.eqb type "join-room" then handleJoinRoom s message
  else if String.eqb type "offer" then handleOffer s message
  else if String.eqb type "answer" then handleAnswer s message
  else if String.eqb type "ice-candidate" then handleIceCandidate s message
  else if String.eqb type "leave-room" then handleLeaveRoom s message
  else sendError s ("Unknown message type: " ++ type).

(** The [message] listener of [handleConnection].  [None] is a frame from
    which the [try] block gets no message object: [JSON.parse] throws, or it
    gives [null] and reading [message.type] throws; either way the [catch]
    runs before any handler.  [Some message] is a frame that gives an object
    with the field types of [WebRTCMessage]. *)
Definition onMessage (s : WebSocket) (parsed : option WebRTCMessage) : Handler unit :=
  try_catch
    (match parsed with
     | Some message => handleMessage s message
     | None => throw
     end)
    (sendError s "Invalid message format").

(** The [close] listener of [handleConnection]. *)
Definition onClose (s : WebSocket) : Handler unit := handleDisconnection s.
End Server.

(** [public getRoomInfo(roomId)] *)
Record RoomInfo := {
  exists_ : bool;
  participantCount : nat;
  participants : list string
}.

Definition getRoomInfo (roomId : string) : Handler RoomInfo :=
  room <- rooms_get roomId ;;
  ret {| exists_ := match room with Some _ => true | None => false end;
         participantCount := match room with
                             | Some r => JsMap.size r
                             | None => 0
                             end;
         participants := match room with
                         | Some r => JsMap.keys r
                         | None => []
                         end |}.

(** ** Runs of the server *)

Inductive Event :=
| Message (s : WebSocket) (parsed : option WebRTCMessage)
| Close (s : WebSocket).

(** An event together with the ready states at the time it is handled. *)
Definition Input := ((WebSocket -> ReadyState) * Event)%type.

Definition handle (i : Input) : Handler unit :=
  match snd i with
  | Message s parsed => onMessage (fst i) s parsed
  | Close s => onClose (fst i) s
  end.

(** The table starts empty ([new Map()]). *)
Definition run (inputs : list Input) : Handler unit := for_each inputs handle.

Definition reachable (rooms : Rooms) : Prop :=
  exists inputs, table (run inputs []) = rooms.

(** ** Vocabulary of the properties *)

Definition done (rooms : Rooms) (out : list Send) : Outcome unit :=
  {| value := Some tt; table := rooms; sent := out |}.

(** The sends that put [message] on the socket of each listed entry. *)
Definition deliver (message : ServerMessage) (l : Room) : list Send :=
  map (fun e => (socket (snd e), message)) l.

(** The entries whose transport is open. *)
Definition open_members (readyState : WebSocket -> ReadyState) (room : Room) : Room :=
  filter (fun e => is_open (readyState (socket (snd e)))) room.

(** An outcome preceded by earlier sends. *)
Definition after {B} (out : list Send) (r : Outcome B) : Outcome B :=
  {| value := value r; table := table r; sent := out ++ sent r |}.

(** The test of the loop of [broadcastToRoom]. *)
Definition hears (readyState : WebSocket -> ReadyState) (exclude : list string)
    (e : string * RoomParticipant) : bool :=
  negb (includes exclude (fst e)) && is_open (readyState (socket (snd e))).

(** The participant record [handleJoinRoom] stores. *)
Definition joiner (s : WebSocket) (u : string) (data : option JSON) : RoomParticipant :=
  {| userId := u;
     socket := s;
     metadata := match data with
                 | Some d => if truthy d then d else JObject []
                 | None => JObject []
                 end |}.

(** The user id [handleLeaveRoom] passes on. *)
Definition leaver (s : WebSocket) (message : WebRTCMessage) (rooms : Rooms) : string :=
  match present (msg_userId message) with
  | Some u => u
  | None => first_user_of s (JsMap.values rooms)
  end.

(** What the close of [s] leaves of one room, and what it sends there. *)
Definition close_entry (s : WebSocket) (e : string * Room) : Rooms :=
  match find (socket_is s) (snd e) with
  | Some p =>
      let room' := JsMap.delete (fst p) (snd e) in
      if Nat.eqb (JsMap.size room') 0 then [] else [(fst e, room')]
  | None => [e]
  end.

Definition close_sends (readyState : WebSocket -> ReadyState) (s : WebSocket)
    (room : Room) : list Send :=
  match find (socket_is s) room with
  | Some p =>
      let room' := JsMap.delete (fst p) room in
      deliver (UserLeft (fst p) (JsMap.size room'))
              (filter (hears readyState [fst p]) room')
  | None => []
  end.

(** The body of the outer loop of [handleDisconnection]. *)
Definition visit (readyState : WebSocket -> ReadyState) (s : WebSocket)
    (entry : string * Room) : Handler unit :=
  let '(roomId, _) := entry in
  entries <- room_entries roomId ;;
  match find (socket_is s) entries with
  | Some (userId, _) => removeUserFromRoom readyState (Some roomId) userId s
  | None => ret tt
  end.

(** *** Well-formed tables

    What every table the server builds satisfies: room ids and user ids are
    distinct and non-empty, every listed room has a participant, and every
    participant is stored under its own [userId]. *)

Definition member_ok (e : string * RoomParticipant) : Prop :=
  fst e <> "" /\ userId (snd e) = fst e.

Definition room_ok (room : Room) : Prop :=
  JsMap.ok room /\ room <> [] /\ Forall member_ok room.

Definition entry_ok (e : string * Room) : Prop :=
  fst e <> "" /\ room_ok (snd e).

Definition wf (rooms : Rooms) : Prop :=
  JsMap.ok rooms /\ Forall entry_ok rooms.

(** A handler that returns normally and keeps the table well formed. *)
Definition safe (h : Handler unit) : Prop :=
  forall rooms, wf rooms -> value (h rooms) = Some tt /\ wf (table (h rooms)).

(** A handler that never throws. *)
Definition returns (h : Handler unit) : Prop :=
  forall rooms, value (h rooms) = Some tt.

(** *** Sockets and identities *)

(** No participant of any room holds the socket [s]. *)
Definition unbound (s : WebSocket) (rooms : Rooms) : Prop :=
  forall roomId room e,
    In (roomId, room) rooms -> In e room -> socket (snd e) <> s.

(** Every entry that holds the socket [s] is the entry of [u] in the room
    [roomId]: the connection has at most this one identity. *)
Definition bound_only_as (s : WebSocket) (roomId u : string) (rooms : Rooms) : Prop :=
  forall rid room e,
    In (rid, room) rooms -> In e room -> socket (snd e) = s ->
    rid = roomId /\ fst e = u.

(** The user id under which the close handler finds [s] in a room. *)
Definition identity_in (s : WebSocket) (room : Room) : option string :=
  option_map fst (find (socket_is s) room).

(** The relayed object for each relayed [type]. *)
Definition relayed_as (type : string) : option (option JSON -> ServerMessage) :=
  if String.eqb type "offer" then Some Offer
  else if String.eqb type "answer" then Some Answer
  else if String.eqb type "ice-candidate" then Some IceCandidate
  else None.

(** *** Senders, recipients and message kinds *)

(** Some participant holds the socket [s]. *)
Definition bound (s : WebSocket) (rooms : Rooms) : Prop :=
  exists roomId room e,
    In (roomId, room) rooms /\ In e room /\ socket (snd e) = s.

(** The socket an input comes from. *)
Definition sender (i : Input) : WebSocket :=
  match snd i with
  | Message s _ => s
  | Close s => s
  end.

(** The input is a parsed join-room message. *)
Definition is_join (i : Input) : bool :=
  match snd i with
  | Message _ (Some m) => String.eqb (msg_type m) "join-room"
  | _ => false
  end.

(** The [case] labels of [handleMessage]. *)
Definition known_type (type : string) : bool :=
  existsb (String.eqb type)
    ["join-room"; "offer"; "answer"; "ice-candidate"; "leave-room"].

Definition is_error (m : ServerMessage) : bool :=
  match m with
  | Error _ => true
  | _ => false
  end.

(** Every send of a handler satisfies [P]. *)
Definition all_sent {A} (P : Send -> Prop) (h : Handler A) : Prop :=
  forall rooms, Forall P (sent (h rooms)).

(** The send goes to a socket whose transport is open. *)
Definition to_open (readyState : WebSocket -> ReadyState) (x : Send) : Prop :=
  is_open (readyState (fst x)) = true.

(** The number of entries of a room that hold the socket [s]. *)
Definition held_by (s : WebSocket) (room : Room) : nat :=
  length (filter (socket_is s) room).

(** ** The scenarios of the specification *)

Module Scenario.
Definition all_open : WebSocket -> ReadyState := fun _ => OPEN.

Definition alice : WebSocket := 1.
Definition bob : WebSocket := 2.
Definition carol : WebSocket := 3.

Definition join_room (roomId u : string) : WebRTCMessage :=
  {| msg_type := "join-room"; msg_roomId := Some roomId;
     msg_data := Some (JObject [("timestamp", JNumber 0)]); msg_userId := Some u |}.

Definition leave_room (roomId u : option string) : WebRTCMessage :=
  {| msg_type := "leave-room"; msg_roomId := roomId;
     msg_data := None; msg_userId := u |}.

Definition offer (roomId : string) : WebRTCMessage :=
  {| msg_type := "offer"; msg_roomId := Some roomId;
     msg_data := Some (JObject [("sdp", JString "v=0")]); msg_userId := None |}.

Definition says (s : WebSocket) (m : WebRTCMessage) : Input :=
  (all_open, Message s (Some m)).

Definition member (s : WebSocket) (u : string) : string * RoomParticipant :=
  (u, {| userId := u; socket := s;
         metadata := JObject [("timestamp", JNumber 0)] |}).

(** A join-room with an empty user id, a leave-room without a room id, and
    Bob's leave-room for r1. *)
Definition join_nameless : WebRTCMessage :=
  {| msg_type := "join-room"; msg_roomId := Some "r1";
     msg_data := None; msg_userId := Some "" |}.
Definition leave_nowhere : WebRTCMessage := leave_room None (Some "alice").
Definition leave_bob : WebRTCMessage := leave_room (Some "r1") (Some "bob").

(** Alice alone in r1, and Alice and Bob in r1. *)
Definition one : Rooms := [("r1", [member alice "alice"])].
Definition two : Rooms := [("r1", [member alice "alice"; member bob "bob"])].

(** One connection under two user ids: Alice's socket has joined r1 as a
    and as b, and Bob's socket as c. *)
Definition shared : Rooms :=
  [("r1", [member alice "a"; member alice "b"; member bob "c"])].

(** One connection in two rooms: Bob's socket has joined r1 and r2. *)
Definition two_rooms : Rooms :=
  [("r1", [member alice "alice"; member bob "bob"]); ("r2", [member bob "bob"])].

(** The ready states once the transport of [s] is closed. *)
Definition closed (s : WebSocket) : WebSocket -> ReadyState :=
  fun x => if Nat.eqb x s then CLOSED else OPEN.

(** A message of an unknown type, and an offer without a room id. *)
Definition wave : WebRTCMessage :=
  {| msg_type := "wave"; msg_roomId := Some "r1";
     msg_data := None; msg_userId := Some "alice" |}.
Definition offer_nowhere : WebRTCMessage :=
  {| msg_type := "offer"; msg_roomId := None;
     msg_data := None; msg_userId := None |}.
End Scenario.

(** * Properties *)

(** ** Facts about [JsMap] *)

Module JsMapFacts.
Import JsMap.
Section Facts.
Context {V : Type}.
Implicit Types (m : JsMap.t V) (k : string) (v : V) (e : string * V).

Lemma get_In k m v : get k m = Some v -> In (k, v) m.
Proof.
  induction m as [|[k' v'] m IH]; simpl; [discriminate|].
  destruct (String.eqb_spec k k') as [->|Hne].
  - intros [= ->]. now left.
  - intros H. right. auto.
Qed.

Lemma get_None k m : get k m = None <-> ~ In k (keys m).
Proof.
  induction m as [|[k' v'] m IH]; simpl.
  - split; auto.
  - destruct (String.eqb_spec k k') as [->|Hne].
    + split; [discriminate|]. intros H. exfalso. apply H. now left.
    + rewrite IH. split.
      * intros H [E|E]; [now apply Hne|now apply H].
      * intros H E. apply H. now right.
Qed.

Lemma get_Some_keys k m v : get k m = Some v -> In k (keys m).
Proof. intros H. apply get_In in H. now apply (in_map fst) in H. Qed.

Lemma keys_get k m : In k (keys m) -> exists v, get k m = Some v.
Proof.
  intros H. destruct (get k m) as [v|] eqn:E; [now exists v|].
  apply get_None in E. contradiction.
Qed.

Lemma In_get k m v : ok m -> In (k, v) m -> get k m = Some v.
Proof.
  unfold ok. induction m as [|[k' v'] m IH]; simpl; [tauto|].
  intros Hnd [E|E].
  - injection E as -> ->. now rewrite String.eqb_refl.
  - inversion Hnd as [|? ? Hnot Hnd']; subst.
    destruct (String.eqb_spec k k') as [->|Hne].
    + exfalso. apply Hnot. now apply (in_map fst) in E.
    + auto.
Qed.

Lemma has_true k m : has k m = true <-> In k (keys m).
Proof.
  unfold has. split.
  - destruct (get k m) eqn:E; [|discriminate]. intros _.
    now apply get_Some_keys in E.
  - intros H. apply keys_get in H as [v ->]. reflexivity.
Qed.

Lemma get_set_same k v m : get k (set k v m) = Some v.
Proof.
  induction m as [|[k' v'] m IH]; simpl.
  - now rewrite String.eqb_refl.
  - destruct (String.eqb_spec k k') as [->|Hne]; simpl.
    + now rewrite String.eqb_refl.
    + destruct (String.eqb_spec k k'); [contradiction|exact IH].
Qed.

Lemma get_set_other k k' v m : k' <> k -> get k' (set k v m) = get k' m.
Proof.
  intros Hne. induction m as [|[k0 v0] m IH]; simpl.
  - destruct (String.eqb_spec k' k); [contradiction|reflexivity].
  - destruct (String.eqb_spec k k0) as [->|Hk]; simpl.
    + destruct (String.eqb_spec k' k0); [contradiction|reflexivity].
    + now rewrite IH.
Qed.

Lemma set_set k v v' m : set k v' (set k v m) = set k v' m.
Proof.
  induction m as [|[k0 v0] m IH]; simpl.
  - now rewrite String.eqb_refl.
  - destruct (String.eqb_spec k k0) as [->|Hk]; simpl.
    + now rewrite String.eqb_refl.
    + destruct (String.eqb_spec k k0); [contradiction|now rewrite IH].
Qed.

Lemma set_absent k v m : get k m = None -> set k v m = m ++ [(k, v)].
Proof.
  induction m as [|[k0 v0] m IH]; simpl; [reflexivity|].
  destruct (String.eqb_spec k k0); [discriminate|].
  intros H. now rewrite IH.
Qed.

Lemma keys_set_present k v m : In k (keys m) -> keys (set k v m) = keys m.
Proof.
  induction m as [|[k0 v0] m IH]; simpl; [tauto|].
  destruct (String.eqb_spec k k0) as [->|Hk]; simpl; [reflexivity|].
  intros [E|E]; [now subst|]. now rewrite IH.
Qed.

Lemma ok_set k v m : ok m -> ok (set k v m).
Proof.
  intros H. destruct (get k m) as [v0|] eqn:E.
  - unfold ok. rewrite keys_set_present; [exact H|].
    now apply get_Some_keys in E.
  - rewrite (set_absent _ _ _ E). unfold ok, keys. rewrite map_app. simpl.
    apply NoDup_app; [exact H|constructor; [tauto|constructor]|].
    intros a Ha [<-|[]]. now apply get_None in E.
Qed.

Lemma size_set_present k v m :
  In k (keys m) -> size (set k v m) = size m.
Proof.
  intros H. unfold size.
  rewrite <- (length_map fst), <- (length_map fst m).
  fold (keys (set k v m)). now rewrite keys_set_present.
Qed.

Lemma size_set_absent k v m :
  get k m = None -> size (set k v m) = S (size m).
Proof.
  intros H. rewrite (set_absent _ _ _ H). unfold size.
  rewrite length_app. simpl. lia.
Qed.

Lemma In_set e k v m : In e (set k v m) -> e = (k, v) \/ In e m.
Proof.
  induction m as [|[k0 v0] m IH]; simpl.
  - intros [<-|[]]. now left.
  - destruct (String.eqb_spec k k0) as [->|Hk]; simpl.
    + intros [<-|H]; auto.
    + intros [<-|H]; auto. apply IH in H as [->|H]; auto.
Qed.

Lemma others_set k v m : others k (set k v m) = others k m.
Proof.
  unfold others. induction m as [|[k0 v0] m IH]; simpl.
  - now rewrite String.eqb_refl.
  - destruct (String.eqb_spec k k0) as [->|Hk]; simpl.
    + now rewrite String.eqb_refl.
    + now rewrite IH.
Qed.

Lemma others_delete k m : ok m -> others k (delete k m) = others k m.
Proof.
  unfold others, ok. induction m as [|[k0 v0] m IH]; simpl; [reflexivity|].
  intros Hnd. inversion Hnd as [|? ? Hnot Hnd']; subst.
  destruct (String.eqb_spec k k0) as [->|Hk]; simpl.
  - now rewrite String.eqb_refl.
  - destruct (String.eqb_spec k0 k); [now subst|]. simpl.
    now rewrite IH.
Qed.

Lemma others_absent k m : get k m = None -> others k m = m.
Proof.
  unfold others. induction m as [|[k0 v0] m IH]; simpl; [reflexivity|].
  destruct (String.eqb_spec k k0) as [->|Hk]; [discriminate|].
  intros H. destruct (String.eqb_spec k0 k); [now subst|]. simpl.
  now rewrite IH.
Qed.

Lemma delete_absent k m : get k m = None -> delete k m = m.
Proof.
  induction m as [|[k0 v0] m IH]; simpl; [reflexivity|].
  destruct (String.eqb_spec k k0); [discriminate|].
  intros H. now rewrite IH.
Qed.

Lemma delete_others k m : ok m -> delete k m = others k m.
Proof.
  unfold ok, others. induction m as [|[k0 v0] m IH]; simpl; [reflexivity|].
  intros Hnd. inversion Hnd as [|? ? Hnot Hnd']; subst.
  destruct (String.eqb_spec k k0) as [->|Hk]; simpl.
  - rewrite String.eqb_refl. simpl. symmetry.
    apply (others_absent k0 m). now apply get_None.
  - destruct (String.eqb_spec k0 k); [now subst|]. simpl.
    now rewrite IH.
Qed.

Lemma In_delete e k m : In e (delete k m) -> In e m.
Proof.
  induction m as [|[k0 v0] m IH]; simpl; [tauto|].
  destruct (String.eqb_spec k k0); simpl; [tauto|].
  intros [H|H]; auto.
Qed.

Lemma get_delete_other k k' m : k' <> k -> get k' (delete k m) = get k' m.
Proof.
  intros Hne. induction m as [|[k0 v0] m IH]; simpl; [reflexivity|].
  destruct (String.eqb_spec k k0) as [->|Hk]; simpl.
  - destruct (String.eqb_spec k' k0); [contradiction|reflexivity].
  - now rewrite IH.
Qed.

Lemma get_delete_same k m : ok m -> get k (delete k m) = None.
Proof.
  unfold ok. induction m as [|[k0 v0] m IH]; simpl; [reflexivity|].
  intros Hnd. inversion Hnd as [|? ? Hnot Hnd']; subst.
  destruct (String.eqb_spec k k0) as [->|Hk]; simpl.
  - now apply get_None.
  - destruct (String.eqb_spec k k0); [contradiction|auto].
Qed.

Lemma ok_delete k m : ok m -> ok (delete k m).
Proof.
  unfold ok. induction m as [|[k0 v0] m IH]; simpl; [auto|].
  intros Hnd. inversion Hnd as [|? ? Hnot Hnd']; subst.
  destruct (String.eqb_spec k k0) as [->|Hk]; simpl; [assumption|].
  constructor; [|auto].
  intros H. apply Hnot. apply in_map_iff in H as [[k1 v1] [E H]].
  simpl in E. subst. apply In_delete in H. now apply (in_map fst) in H.
Qed.

Lemma delete_set k v m :
  In k (keys m) -> delete k (set k v m) = delete k m.
Proof.
  induction m as [|[k0 v0] m IH]; simpl; [tauto|].
  destruct (String.eqb_spec k k0) as [->|Hk]; simpl.
  - now rewrite String.eqb_refl.
  - destruct (String.eqb_spec k k0); [contradiction|].
    intros [E|E]; [now subst|]. now rewrite IH.
Qed.

Lemma size_delete_present k m v :
  get k m = Some v -> S (size (delete k m)) = size m.
Proof.
  unfold size. induction m as [|[k0 v0] m IH]; simpl; [discriminate|].
  destruct (String.eqb_spec k k0); [reflexivity|].
  intros H. simpl. now rewrite IH.
Qed.

Lemma size_others_present k m v :
  ok m -> get k m = Some v -> S (size (others k m)) = size m.
Proof.
  intros Hok H. rewrite <- (delete_others k m Hok).
  now apply size_delete_present with v.
Qed.

Lemma In_others e k m : In e (others k m) <-> In e m /\ fst e <> k.
Proof.
  unfold others. rewrite filter_In. split; intros [H1 H2]; split; auto.
  - intros E. rewrite E, String.eqb_refl in H2. discriminate.
  - now destruct (String.eqb_spec (fst e) k).
Qed.
End Facts.
End JsMapFacts.

(** ** What each method returns, sends and stores *)

Import JsMapFacts.

Lemma bind_step {A B} (m : Handler A) (k : A -> Handler B) rooms a rooms1 out1 :
  m rooms = {| value := Some a; table := rooms1; sent := out1 |} ->
  bind m k rooms = after out1 (k a rooms1).
Proof. intros H. unfold bind. rewrite H. reflexivity. Qed.

Lemma after_nil {B} (r : Outcome B) : after [] r = r.
Proof. now destruct r. Qed.

Lemma after_done out rooms out' : after out (done rooms out') = done rooms (out ++ out').
Proof. reflexivity. Qed.

Lemma get_rooms_eq rooms :
  get_rooms rooms = {| value := Some rooms; table := rooms; sent := [] |}.
Proof. reflexivity. Qed.

Lemma rooms_has_eq roomId rooms :
  rooms_has roomId rooms
  = {| value := Some (JsMap.has roomId rooms); table := rooms; sent := [] |}.
Proof. reflexivity. Qed.

Lemma rooms_get_eq roomId rooms :
  rooms_get roomId rooms
  = {| value := Some (JsMap.get roomId rooms); table := rooms; sent := [] |}.
Proof. reflexivity. Qed.

Lemma rooms_set_eq roomId room rooms :
  rooms_set roomId room rooms = done (JsMap.set roomId room rooms) [].
Proof. reflexivity. Qed.

Lemma rooms_delete_eq roomId rooms :
  rooms_delete roomId rooms = done (JsMap.delete roomId rooms) [].
Proof. reflexivity. Qed.

Lemma room_size_eq roomId rooms :
  room_size roomId rooms
  = {| value := Some (JsMap.size (room_now roomId rooms)); table := rooms; sent := [] |}.
Proof. reflexivity. Qed.

Lemma room_keys_eq roomId rooms :
  room_keys roomId rooms
  = {| value := Some (JsMap.keys (room_now roomId rooms)); table := rooms; sent := [] |}.
Proof. reflexivity. Qed.

Lemma room_entries_eq roomId rooms :
  room_entries roomId rooms
  = {| value := Some (JsMap.entries (room_now roomId rooms)); table := rooms; sent := [] |}.
Proof. reflexivity. Qed.

Lemma room_update_eq roomId f room rooms :
  JsMap.get roomId rooms = Some room ->
  room_update roomId f rooms = done (JsMap.set roomId (f room) rooms) [].
Proof.
  intros H. unfold room_update.
  rewrite (bind_step _ _ _ _ _ _ (get_rooms_eq rooms)), after_nil.
  now rewrite H.
Qed.

Lemma room_now_listed roomId room rooms :
  JsMap.get roomId rooms = Some room -> room_now roomId rooms = room.
Proof. intros H. unfold room_now. now rewrite H. Qed.

Lemma room_now_set roomId room rooms :
  room_now roomId (JsMap.set roomId room rooms) = room.
Proof. apply room_now_listed, get_set_same. Qed.

Section ClosedForms.
Variable rs : WebSocket -> ReadyState.

Lemma for_each_send {A} (l : list A) (c : A -> bool) (f : A -> WebSocket)
    (message : ServerMessage) (rooms : Rooms) :
  for_each l (fun a => when (c a) (socket_send (f a) message)) rooms
  = done rooms (map (fun a => (f a, message)) (filter c l)).
Proof.
  induction l as [|a l IH]; [reflexivity|].
  cbn [for_each filter].
  rewrite (bind_step _ _ rooms tt rooms (if c a then [(f a, message)] else []))
    by now destruct (c a).
  rewrite IH, after_done. now destruct (c a).
Qed.

Lemma broadcastToRoom_eq roomId message exclude rooms :
  broadcastToRoom rs roomId message exclude rooms
  = done rooms (deliver message (filter (hears rs exclude) (room_now roomId rooms))).
Proof.
  unfold broadcastToRoom, room_now.
  rewrite (bind_step _ _ _ _ _ _ (rooms_get_eq roomId rooms)), after_nil.
  destruct (JsMap.get roomId rooms) as [room|]; [|reflexivity].
  unfold JsMap.entries.
  apply (for_each_send room (hears rs exclude) (fun e => socket (snd e))).
Qed.

Lemma hears_one u room :
  filter (hears rs [u]) room = open_members rs (JsMap.others u room).
Proof.
  unfold open_members, JsMap.others.
  induction room as [|e room IH]; [reflexivity|].
  cbn [filter]. rewrite IH. unfold hears, includes. cbn [existsb].
  rewrite orb_false_r.
  destruct (String.eqb (fst e) u); cbn [negb andb filter]; [reflexivity|].
  now destruct (is_open (rs (socket (snd e)))).
Qed.

Lemma sendToUser_eq s message rooms :
  sendToUser rs s message rooms
  = done rooms (if is_open (rs s) then [(s, message)] else []).
Proof. unfold sendToUser, when. now destruct (is_open (rs s)). Qed.

Opaque broadcastToRoom sendToUser.

Lemma present_Some o x : present o = Some x <-> o = Some x /\ x <> "".
Proof.
  unfold present. destruct o as [y|]; [|split; [discriminate|intros [? _]; discriminate]].
  destruct (String.eqb_spec y "") as [->|Hne]; split.
  - discriminate.
  - intros [[= ->] H]. now elim H.
  - intros [= ->]. auto.
  - intros [[= ->] _]. reflexivity.
Qed.

(** [removeUserFromRoom] on a listed room: the entry is dropped from the
    room, the JsMap.others with an open transport are told, and the room goes
    when nothing is left in it. *)
Lemma removeUserFromRoom_listed roomId room u s rooms :
  roomId <> "" ->
  JsMap.get roomId rooms = Some room ->
  removeUserFromRoom rs (Some roomId) u s rooms
  = let room' := JsMap.delete u room in
    done (if Nat.eqb (JsMap.size room') 0
          then JsMap.delete roomId rooms
          else JsMap.set roomId room' rooms)
         (deliver (UserLeft u (JsMap.size room')) (filter (hears rs [u]) room')).
Proof.
  intros Hne Hget. unfold removeUserFromRoom.
  assert (Hp : present (Some roomId) = Some roomId) by now apply present_Some.
  rewrite Hp.
  rewrite (bind_step _ _ _ _ _ _ (rooms_get_eq roomId rooms)), after_nil, Hget.
  unfold room_delete.
  rewrite (bind_step _ _ _ _ _ _ (room_update_eq roomId _ room rooms Hget)), after_nil.
  rewrite (bind_step _ _ _ _ _ _ (room_size_eq roomId _)), after_nil.
  rewrite (bind_step _ _ _ _ _ _ (broadcastToRoom_eq roomId _ _ _)).
  rewrite (bind_step _ _ _ _ _ _ (room_size_eq roomId _)), after_nil.
  rewrite room_now_set. cbv zeta. unfold when.
  destruct (Nat.eqb (JsMap.size (JsMap.delete u room)) 0).
  - rewrite rooms_delete_eq, after_done, app_nil_r.
    rewrite delete_set by now apply get_Some_keys in Hget.
    reflexivity.
  - unfold ret. fold (done (JsMap.set roomId (JsMap.delete u room) rooms) []).
    now rewrite after_done, app_nil_r.
Qed.

Lemma removeUserFromRoom_unlisted roomId u s rooms :
  JsMap.get roomId rooms = None ->
  removeUserFromRoom rs (Some roomId) u s rooms = done rooms [].
Proof.
  intros Hget. unfold removeUserFromRoom.
  destruct (present (Some roomId)) as [r|] eqn:Hp; [|reflexivity].
  apply present_Some in Hp as [[= <-] _].
  rewrite (bind_step _ _ _ _ _ _ (rooms_get_eq roomId rooms)), after_nil.
  now rewrite Hget.
Qed.

Lemma removeUserFromRoom_no_room roomId u s rooms :
  present roomId = None ->
  removeUserFromRoom rs roomId u s rooms = done rooms [].
Proof. intros Hp. unfold removeUserFromRoom. now rewrite Hp. Qed.

Lemma handleJoinRoom_accepted s message roomId u rooms :
  present (msg_roomId message) = Some roomId ->
  present (msg_userId message) = Some u ->
  handleJoinRoom rs s message rooms
  = let room' := JsMap.set u (joiner s u (msg_data message)) (room_now roomId rooms) in
    done (JsMap.set roomId room' rooms)
         (deliver (UserJoined u (JsMap.size room')) (filter (hears rs [u]) room')
          ++ (if is_open (rs s)
              then [(s, JoinedRoom roomId (JsMap.size room')
                          (filter (fun id => negb (String.eqb id u)) (JsMap.keys room')))]
              else [])).
Proof.
  intros Hr Hu. unfold handleJoinRoom. rewrite Hr, Hu.
  fold (joiner s u (msg_data message)).
  rewrite (bind_step _ _ _ _ _ _ (rooms_has_eq roomId rooms)), after_nil.
  assert (Hfirst : exists room0,
             when (negb (JsMap.has roomId rooms)) (rooms_set roomId []) rooms
             = done (JsMap.set roomId room0 rooms) []
             /\ room_now roomId rooms = room0
             /\ JsMap.get roomId (JsMap.set roomId room0 rooms) = Some room0).
  { unfold JsMap.has, room_now.
    destruct (JsMap.get roomId rooms) as [room|] eqn:Hget.
    - exists room. cbn [negb when]. unfold ret, done.
      split; [|split; [reflexivity|apply get_set_same]].
      f_equal. clear -Hget. revert Hget.
      induction rooms as [|[k0 v0] rooms IH]; simpl; [discriminate|].
      destruct (String.eqb_spec roomId k0) as [->|Hk].
      + now intros [= ->].
      + intros H. now rewrite <- IH.
    - exists []. cbn [negb when].
      split; [apply rooms_set_eq|split; [reflexivity|apply get_set_same]]. }
  destruct Hfirst as (room0 & Hwhen & Hnow & Hget0).
  rewrite (bind_step _ _ _ _ _ _ Hwhen), after_nil.
  rewrite (bind_step _ _ _ _ _ _ (rooms_get_eq roomId _)), after_nil, Hget0.
  unfold room_set.
  rewrite (bind_step _ _ _ _ _ _ (room_update_eq roomId _ room0 _ Hget0)), after_nil.
  rewrite set_set.
  rewrite (bind_step _ _ _ _ _ _ (room_size_eq roomId _)), after_nil.
  rewrite (bind_step _ _ _ _ _ _ (broadcastToRoom_eq roomId _ _ _)).
  rewrite (bind_step _ _ _ _ _ _ (room_size_eq roomId _)), after_nil.
  rewrite (bind_step _ _ _ _ _ _ (room_keys_eq roomId _)), after_nil.
  rewrite sendToUser_eq, after_done, room_now_set, Hnow.
  reflexivity.
Qed.

Lemma handleJoinRoom_rejected s message rooms :
  present (msg_roomId message) = None \/ present (msg_userId message) = None ->
  handleJoinRoom rs s message rooms
  = done rooms (if is_open (rs s)
                then [(s, Error "Room ID and User ID are required")]
                else []).
Proof.
  intros H. unfold handleJoinRoom, sendError. rewrite <- sendToUser_eq.
  destruct H as [-> | ->]; [reflexivity|].
  now destruct (present (msg_roomId message)).
Qed.

Lemma relay_accepted wrap s message roomId rooms :
  present (msg_roomId message) = Some roomId ->
  relay rs wrap s message rooms
  = done rooms (deliver (wrap (msg_data message))
                  (filter (hears rs [first_user_of s (JsMap.values rooms)])
                          (room_now roomId rooms))).
Proof.
  intros Hr. unfold relay. rewrite Hr.
  assert (Hid : getUserIdBySocket s rooms
                = {| value := Some (first_user_of s (JsMap.values rooms));
                     table := rooms; sent := [] |}) by reflexivity.
  rewrite (bind_step _ _ _ _ _ _ Hid), after_nil.
  apply broadcastToRoom_eq.
Qed.

Lemma relay_rejected wrap s message rooms :
  present (msg_roomId message) = None ->
  relay rs wrap s message rooms
  = done rooms (if is_open (rs s) then [(s, Error "Room ID is required")] else []).
Proof.
  intros Hr. unfold relay. rewrite Hr. unfold sendError. apply sendToUser_eq.
Qed.

Transparent broadcastToRoom sendToUser.

Lemma handleLeaveRoom_eq s message rooms :
  handleLeaveRoom rs s message rooms
  = removeUserFromRoom rs (msg_roomId message) (leaver s message rooms) s rooms.
Proof.
  unfold handleLeaveRoom, leaver.
  destruct (present (msg_userId message)) as [u|].
  - now rewrite (bind_step _ _ rooms u rooms []), after_nil.
  - now rewrite (bind_step _ _ rooms (first_user_of s (JsMap.values rooms)) rooms []),
      after_nil.
Qed.
End ClosedForms.

(** ** The close handler, room by room *)

Section AppFacts.
Context {V : Type}.
Implicit Types (m pre : JsMap.t V) (k : string) (v : V).

Lemma get_app_absent k pre m :
  ~ In k (JsMap.keys pre) -> JsMap.get k (pre ++ m) = JsMap.get k m.
Proof.
  induction pre as [|[k0 v0] pre IH]; simpl; [reflexivity|].
  intros H. destruct (String.eqb_spec k k0) as [->|Hk]; [tauto|].
  apply IH. tauto.
Qed.

Lemma set_app_absent k v pre m :
  ~ In k (JsMap.keys pre) -> JsMap.set k v (pre ++ m) = pre ++ JsMap.set k v m.
Proof.
  induction pre as [|[k0 v0] pre IH]; simpl; [reflexivity|].
  intros H. destruct (String.eqb_spec k k0) as [->|Hk]; [tauto|].
  rewrite IH; tauto.
Qed.

Lemma delete_app_absent k pre m :
  ~ In k (JsMap.keys pre) -> JsMap.delete k (pre ++ m) = pre ++ JsMap.delete k m.
Proof.
  induction pre as [|[k0 v0] pre IH]; simpl; [reflexivity|].
  intros H. destruct (String.eqb_spec k k0) as [->|Hk]; [tauto|].
  rewrite IH; tauto.
Qed.

Lemma Forall_set (P : string * V -> Prop) k v m :
  Forall P m -> P (k, v) -> Forall P (JsMap.set k v m).
Proof.
  intros Hm Hkv. apply Forall_forall. intros e He.
  apply In_set in He as [->|He]; [assumption|].
  now apply (proj1 (Forall_forall P m) Hm).
Qed.

Lemma Forall_delete (P : string * V -> Prop) k m :
  Forall P m -> Forall P (JsMap.delete k m).
Proof.
  intros Hm. apply Forall_forall. intros e He. apply In_delete in He.
  now apply (proj1 (Forall_forall P m) Hm).
Qed.
End AppFacts.

Section CloseHandler.
Variable rs : WebSocket -> ReadyState.
Variable s : WebSocket.

Lemma keys_close_entry e :
  JsMap.keys (close_entry s e) = [] \/ JsMap.keys (close_entry s e) = [fst e].
Proof.
  unfold close_entry. destruct (find (socket_is s) (snd e)) as [p|].
  - cbv zeta. destruct (Nat.eqb _ 0); simpl; auto.
  - simpl. auto.
Qed.

Lemma visit_head pre roomId room rest :
  roomId <> "" ->
  ~ In roomId (JsMap.keys pre) ->
  visit rs s (roomId, room) (pre ++ (roomId, room) :: rest)
  = done (pre ++ close_entry s (roomId, room) ++ rest) (close_sends rs s room).
Proof.
  intros Hne Hpre. unfold visit.
  rewrite (bind_step _ _ _ _ _ _ (room_entries_eq roomId _)), after_nil.
  assert (Hget : JsMap.get roomId (pre ++ (roomId, room) :: rest) = Some room).
  { rewrite get_app_absent by assumption. simpl. now rewrite String.eqb_refl. }
  rewrite (room_now_listed _ _ _ Hget).
  unfold close_entry, close_sends, JsMap.entries. cbn [fst snd].
  destruct (find (socket_is s) room) as [[u p]|]; [|reflexivity].
  rewrite (removeUserFromRoom_listed rs roomId room u s _ Hne Hget).
  cbv zeta. cbn [fst]. destruct (Nat.eqb (JsMap.size (JsMap.delete u room)) 0).
  - rewrite delete_app_absent by assumption. simpl.
    now rewrite String.eqb_refl.
  - rewrite set_app_absent by assumption. simpl.
    now rewrite String.eqb_refl.
Qed.

Lemma visit_all rest : forall pre,
  JsMap.ok (pre ++ rest) ->
  Forall (fun e => fst e <> "") rest ->
  for_each rest (visit rs s) (pre ++ rest)
  = done (pre ++ flat_map (close_entry s) rest)
         (flat_map (fun e => close_sends rs s (snd e)) rest).
Proof.
  induction rest as [|[roomId room] rest IH]; intros pre Hok Hne.
  - reflexivity.
  - inversion Hne as [|? ? Hhead Htail]; subst. cbn [fst] in Hhead.
    assert (Hpre : ~ In roomId (JsMap.keys pre)).
    { unfold JsMap.ok, JsMap.keys in Hok. rewrite map_app in Hok.
      apply NoDup_remove_2 in Hok. intros H. apply Hok.
      apply in_or_app. now left. }
    cbn [for_each flat_map snd].
    rewrite (bind_step _ _ _ _ _ _ (visit_head pre roomId room rest Hhead Hpre)).
    rewrite app_assoc. rewrite IH.
    + rewrite after_done. now rewrite <- app_assoc.
    + unfold JsMap.ok in *. unfold JsMap.keys in Hok |- *.
      rewrite !map_app in *. cbn [map fst] in Hok.
      fold (JsMap.keys (close_entry s (roomId, room))).
      destruct (keys_close_entry (roomId, room)) as [-> | ->].
      * rewrite app_nil_r. now apply NoDup_remove_1 in Hok.
      * rewrite <- app_assoc. exact Hok.
    + assumption.
Qed.

(** [handleDisconnection] on a table with distinct, non-empty room ids. *)
Lemma handleDisconnection_eq rooms :
  JsMap.ok rooms ->
  Forall (fun e => fst e <> "") rooms ->
  handleDisconnection rs s rooms
  = done (flat_map (close_entry s) rooms)
         (flat_map (fun e => close_sends rs s (snd e)) rooms).
Proof.
  intros Hok Hne. unfold handleDisconnection.
  rewrite (bind_step _ _ _ _ _ _ (get_rooms_eq _)), after_nil.
  exact (visit_all rooms [] Hok Hne).
Qed.
End CloseHandler.

(** ** Well-formed tables are kept *)

Lemma wf_nil : wf [].
Proof. split; constructor. Qed.

Lemma wf_get rooms roomId room :
  wf rooms -> JsMap.get roomId rooms = Some room -> roomId <> "" /\ room_ok room.
Proof.
  intros [_ Hall] Hget. apply get_In in Hget.
  exact (proj1 (Forall_forall _ _) Hall _ Hget).
Qed.

Lemma wf_ids rooms : wf rooms -> Forall (fun e : string * Room => fst e <> "") rooms.
Proof.
  intros [_ Hall]. apply Forall_forall. intros e He.
  exact (proj1 (proj1 (Forall_forall _ _) Hall _ He)).
Qed.

Lemma wf_set rooms roomId room :
  wf rooms -> roomId <> "" -> room_ok room -> wf (JsMap.set roomId room rooms).
Proof.
  intros [Hok Hall] Hne Hroom. split.
  - now apply ok_set.
  - apply Forall_set; [assumption|]. split; assumption.
Qed.

Lemma wf_delete rooms roomId : wf rooms -> wf (JsMap.delete roomId rooms).
Proof.
  intros [Hok Hall]. split; [now apply ok_delete|now apply Forall_delete].
Qed.

Lemma set_not_nil {V} k (v : V) m : JsMap.set k v m <> [].
Proof. destruct m as [|[k0 v0] m]; simpl; [|destruct (String.eqb k k0)]; discriminate. Qed.

Lemma room_now_ok rooms roomId :
  wf rooms ->
  JsMap.ok (room_now roomId rooms) /\ Forall member_ok (room_now roomId rooms).
Proof.
  intros Hwf. unfold room_now.
  destruct (JsMap.get roomId rooms) as [room|] eqn:Hget.
  - apply (wf_get _ _ _ Hwf) in Hget as (_ & Hok & _ & Hall). now split.
  - split; constructor.
Qed.

Section Returns.
Variable rs : WebSocket -> ReadyState.

Lemma returns_removeUserFromRoom roomId u s : returns (removeUserFromRoom rs roomId u s).
Proof.
  intros rooms. destruct (present roomId) as [rid|] eqn:Hp.
  - apply present_Some in Hp as [-> Hne].
    destruct (JsMap.get rid rooms) as [room|] eqn:Hget.
    + now rewrite (removeUserFromRoom_listed rs rid room u s rooms Hne Hget).
    + now rewrite (removeUserFromRoom_unlisted rs rid u s rooms Hget).
  - now rewrite (removeUserFromRoom_no_room rs roomId u s rooms Hp).
Qed.

Lemma returns_handleJoinRoom s message : returns (handleJoinRoom rs s message).
Proof.
  intros rooms.
  destruct (present (msg_roomId message)) as [rid|] eqn:Hr;
    [destruct (present (msg_userId message)) as [u|] eqn:Hu|].
  - now rewrite (handleJoinRoom_accepted rs s message rid u rooms Hr Hu).
  - now rewrite (handleJoinRoom_rejected rs s message rooms) by now right.
  - now rewrite (handleJoinRoom_rejected rs s message rooms) by now left.
Qed.

Lemma returns_relay wrap s message : returns (relay rs wrap s message).
Proof.
  intros rooms. destruct (present (msg_roomId message)) as [rid|] eqn:Hr.
  - now rewrite (relay_accepted rs wrap s message rid rooms Hr).
  - now rewrite (relay_rejected rs wrap s message rooms Hr).
Qed.

Lemma returns_handleMessage s message : returns (handleMessage rs s message).
Proof.
  unfold handleMessage. cbv zeta.
  destruct (String.eqb (msg_type message) "join-room"); [apply returns_handleJoinRoom|].
  destruct (String.eqb (msg_type message) "offer"); [apply returns_relay|].
  destruct (String.eqb (msg_type message) "answer"); [apply returns_relay|].
  destruct (String.eqb (msg_type message) "ice-candidate"); [apply returns_relay|].
  destruct (String.eqb (msg_type message) "leave-room").
  - intros rooms. rewrite handleLeaveRoom_eq. apply returns_removeUserFromRoom.
  - intros rooms. unfold sendError. now rewrite sendToUser_eq.
Qed.

(** A handler that returns normally is not affected by the [catch]. *)
Lemma try_catch_returns {A} (m h : Handler A) rooms a :
  value (m rooms) = Some a -> try_catch m h rooms = m rooms.
Proof. intros H. unfold try_catch. now rewrite H. Qed.

Lemma onMessage_parsed s message rooms :
  onMessage rs s (Some message) rooms = handleMessage rs s message rooms.
Proof.
  unfold onMessage. apply try_catch_returns with tt, returns_handleMessage.
Qed.

Lemma onMessage_malformed s rooms :
  onMessage rs s None rooms
  = done rooms (if is_open (rs s) then [(s, Error "Invalid message format")] else []).
Proof.
  unfold onMessage, try_catch, throw, sendError. cbn [value table sent].
  rewrite sendToUser_eq. reflexivity.
Qed.

(** The dispatch of [handleMessage]. *)
Lemma onMessage_join s message rooms :
  msg_type message = "join-room" ->
  onMessage rs s (Some message) rooms = handleJoinRoom rs s message rooms.
Proof. intros H. rewrite onMessage_parsed. unfold handleMessage. now rewrite H. Qed.

Lemma onMessage_leave s message rooms :
  msg_type message = "leave-room" ->
  onMessage rs s (Some message) rooms = handleLeaveRoom rs s message rooms.
Proof. intros H. rewrite onMessage_parsed. unfold handleMessage. now rewrite H. Qed.
End Returns.

Section Safety.
Variable rs : WebSocket -> ReadyState.

Lemma safe_removeUserFromRoom roomId u s : safe (removeUserFromRoom rs roomId u s).
Proof.
  intros rooms Hwf.
  destruct (present roomId) as [rid|] eqn:Hp.
  - apply present_Some in Hp as [-> Hne].
    destruct (JsMap.get rid rooms) as [room|] eqn:Hget.
    + rewrite (removeUserFromRoom_listed rs rid room u s rooms Hne Hget).
      cbv zeta. split; [reflexivity|]. cbn [table done].
      destruct (Nat.eqb (JsMap.size (JsMap.delete u room)) 0) eqn:Hsize.
      * now apply wf_delete.
      * apply wf_set; [assumption..|].
        apply (wf_get _ _ _ Hwf) in Hget as (_ & Hok & _ & Hall).
        split; [now apply ok_delete|split; [|now apply Forall_delete]].
        intros E. rewrite E in Hsize. discriminate.
    + rewrite (removeUserFromRoom_unlisted rs rid u s rooms Hget). now split.
  - rewrite (removeUserFromRoom_no_room rs roomId u s rooms Hp). now split.
Qed.

Lemma safe_handleJoinRoom s message : safe (handleJoinRoom rs s message).
Proof.
  intros rooms Hwf.
  destruct (present (msg_roomId message)) as [rid|] eqn:Hr;
    [destruct (present (msg_userId message)) as [u|] eqn:Hu|].
  - rewrite (handleJoinRoom_accepted rs s message rid u rooms Hr Hu).
    cbv zeta. split; [reflexivity|]. cbn [table done].
    apply present_Some in Hr as [_ Hrid]. apply present_Some in Hu as [_ Huid].
    destruct (room_now_ok rooms rid Hwf) as [Hok Hall].
    apply wf_set; [assumption..|].
    split; [now apply ok_set|split; [apply set_not_nil|]].
    apply Forall_set; [assumption|]. now split.
  - rewrite (handleJoinRoom_rejected rs s message rooms) by now right. now split.
  - rewrite (handleJoinRoom_rejected rs s message rooms) by now left. now split.
Qed.

Lemma safe_relay wrap s message : safe (relay rs wrap s message).
Proof.
  intros rooms Hwf. destruct (present (msg_roomId message)) as [rid|] eqn:Hr.
  - rewrite (relay_accepted rs wrap s message rid rooms Hr). now split.
  - rewrite (relay_rejected rs wrap s message rooms Hr). now split.
Qed.

Lemma safe_handleLeaveRoom s message : safe (handleLeaveRoom rs s message).
Proof.
  intros rooms Hwf. rewrite handleLeaveRoom_eq.
  now apply safe_removeUserFromRoom.
Qed.

Lemma safe_sendError s error : safe (sendError rs s error).
Proof.
  intros rooms Hwf. unfold sendError. rewrite sendToUser_eq. now split.
Qed.

Lemma safe_handleDisconnection s : safe (handleDisconnection rs s).
Proof.
  intros rooms Hwf.
  rewrite (handleDisconnection_eq rs s rooms (proj1 Hwf) (wf_ids rooms Hwf)).
  split; [reflexivity|]. cbn [table done].
  destruct Hwf as [Hok Hall]. unfold JsMap.ok in Hok.
  induction rooms as [|[rid room] rooms IH]; [apply wf_nil|].
  inversion Hok as [|? ? Hnot Hok']; subst.
  inversion Hall as [|? ? [Hrid Hroom] Hall']; subst.
  specialize (IH Hok' Hall'). cbn [flat_map].
  assert (Hkeys : forall k, In k (JsMap.keys (flat_map (close_entry s) rooms)) ->
                            In k (JsMap.keys rooms)).
  { clear. intros k. induction rooms as [|e rooms IH]; [auto|].
    cbn [flat_map]. unfold JsMap.keys in *. rewrite map_app. cbn [map].
    intros H. apply in_app_or in H as [H|H]; [|right; auto].
    left. fold (JsMap.keys (close_entry s e)) in H.
    destruct (keys_close_entry s e) as [E|E]; rewrite E in H; simpl in H; tauto. }
  unfold close_entry at 1. cbn [fst snd].
  destruct (find (socket_is s) room) as [p|]; cbv zeta;
    [destruct (Nat.eqb (JsMap.size (JsMap.delete (fst p) room)) 0) eqn:Hsize|];
    cbn [app]; [exact IH| |].
  - destruct IH as [IHok IHall]. split.
    + unfold JsMap.ok. cbn [JsMap.keys map fst]. constructor; [|exact IHok].
      intros H. apply Hnot. now apply Hkeys.
    + constructor; [|exact IHall]. split; [exact Hrid|]. cbn [snd].
      destruct Hroom as (Hrok & _ & Hrall).
      split; [now apply ok_delete|split; [|now apply Forall_delete]].
      intros E. rewrite E in Hsize. discriminate.
  - destruct IH as [IHok IHall]. split.
    + unfold JsMap.ok. cbn [JsMap.keys map fst]. constructor; [|exact IHok].
      intros H. apply Hnot. now apply Hkeys.
    + constructor; [|exact IHall]. split; assumption.
Qed.

Lemma safe_handleMessage s message : safe (handleMessage rs s message).
Proof.
  unfold handleMessage. cbv zeta.
  destruct (String.eqb (msg_type message) "join-room"); [apply safe_handleJoinRoom|].
  destruct (String.eqb (msg_type message) "offer"); [apply safe_relay|].
  destruct (String.eqb (msg_type message) "answer"); [apply safe_relay|].
  destruct (String.eqb (msg_type message) "ice-candidate"); [apply safe_relay|].
  destruct (String.eqb (msg_type message) "leave-room"); [apply safe_handleLeaveRoom|].
  apply safe_sendError.
Qed.

Lemma safe_onMessage s parsed : safe (onMessage rs s parsed).
Proof.
  intros rooms Hwf. destruct parsed as [message|].
  - rewrite onMessage_parsed. now apply safe_handleMessage.
  - rewrite onMessage_malformed. now split.
Qed.
End Safety.

Lemma safe_handle i : safe (handle i).
Proof.
  destruct i as [rs [s parsed|s]]; unfold handle; cbn [fst snd].
  - apply safe_onMessage.
  - apply safe_handleDisconnection.
Qed.

Lemma safe_for_each {A} (l : list A) (body : A -> Handler unit) :
  (forall a, safe (body a)) -> safe (for_each l body).
Proof.
  intros Hbody. induction l as [|a l IH]; intros rooms Hwf.
  - now split.
  - cbn [for_each]. destruct (Hbody a rooms Hwf) as [Hv Ht].
    destruct (body a rooms) as [v t o] eqn:E. cbn [value table] in Hv, Ht. subst v.
    rewrite (bind_step _ _ _ _ _ _ E). cbn [after value table].
    now apply IH.
Qed.

Lemma safe_run inputs : safe (run inputs).
Proof. apply safe_for_each, safe_handle. Qed.

Lemma reachable_wf rooms : reachable rooms -> wf rooms.
Proof. intros [inputs <-]. apply safe_run, wf_nil. Qed.

(** ** The scenarios of the specification, run *)

(** Scenario A: the first join creates the room and is answered alone. *)
Example scenario_A :
  run [Scenario.says Scenario.alice (Scenario.join_room "r1" "alice")] []
  = done Scenario.one [(Scenario.alice, JoinedRoom "r1" 1 [])].
Proof. reflexivity. Qed.

(** Scenario B: Bob joins Alice. *)
Example scenario_B :
  handle (Scenario.says Scenario.bob (Scenario.join_room "r1" "bob")) Scenario.one
  = done Scenario.two
      [(Scenario.alice, UserJoined "bob" 2);
       (Scenario.bob, JoinedRoom "r1" 2 ["alice"])].
Proof. reflexivity. Qed.

(** Scenario C: Alice's offer reaches Bob and not Alice. *)
Example scenario_C :
  handle (Scenario.says Scenario.alice (Scenario.offer "r1")) Scenario.two
  = done Scenario.two
      [(Scenario.bob, Offer (Some (JObject [("sdp", JString "v=0")])))].
Proof. reflexivity. Qed.

(** Scenario D: Bob's transport drops. *)
Example scenario_D :
  handle (Scenario.all_open, Close Scenario.bob) Scenario.two
  = done Scenario.one [(Scenario.alice, UserLeft "bob" 1)].
Proof. reflexivity. Qed.

(** Scenario E: Alice leaves, the room goes, and the query finds nothing. *)
Example scenario_E :
  handle (Scenario.says Scenario.alice
            (Scenario.leave_room (Some "r1") (Some "alice"))) Scenario.one
  = done [] []
  /\ value (getRoomInfo "r1" [])
     = Some {| exists_ := false; participantCount := 0; participants := [] |}.
Proof. split; reflexivity. Qed.

Lemma reachable_one : reachable Scenario.one.
Proof.
  exists [Scenario.says Scenario.alice (Scenario.join_room "r1" "alice")].
  reflexivity.
Qed.

Lemma reachable_two : reachable Scenario.two.
Proof.
  exists [Scenario.says Scenario.alice (Scenario.join_room "r1" "alice");
          Scenario.says Scenario.bob (Scenario.join_room "r1" "bob")].
  reflexivity.
Qed.

(** ** The room query *)

(** C9.  [getRoomInfo] answers [{exists: false, participantCount: 0,
    participants: []}] for a room id that is not in the table and
    [{exists: true, participantCount: size, participants: the member ids}]
    for a room id that is; it returns normally, leaves the table as it was
    and sends nothing. *)
Theorem getRoomInfo_answer (roomId : string) (rooms : Rooms) :
  getRoomInfo roomId rooms
  = {| value :=
         Some (match JsMap.get roomId rooms with
               | Some room => {| exists_ := true;
                                 participantCount := JsMap.size room;
                                 participants := JsMap.keys room |}
               | None => {| exists_ := false;
                            participantCount := 0;
                            participants := [] |}
               end);
       table := rooms;
       sent := [] |}.
Proof.
  unfold getRoomInfo.
  rewrite (bind_step _ _ _ _ _ _ (rooms_get_eq roomId rooms)), after_nil.
  now destruct (JsMap.get roomId rooms).
Qed.

(** ** Missing fields *)

(** C7.  A join-room envelope whose [roomId] or [userId] is absent or empty
    is answered by the error reply to the sender alone (through
    [sendToUser]), and the table is left as it was: no room is created and
    no participant is inserted. *)
Theorem join_missing_field_rejected
    (rs : WebSocket -> ReadyState) (s : WebSocket) (message : WebRTCMessage)
    (rooms : Rooms) :
  msg_type message = "join-room" ->
  msg_roomId message = None \/ msg_roomId message = Some ""
  \/ msg_userId message = None \/ msg_userId message = Some "" ->
  onMessage rs s (Some message) rooms
  = done rooms (if is_open (rs s)
                then [(s, Error "Room ID and User ID are required")]
                else []).
Proof.
  intros Htype Hmissing. rewrite onMessage_join by assumption.
  apply handleJoinRoom_rejected. unfold present.
  destruct Hmissing as [-> | [-> | [-> | ->]]]; auto.
Qed.

Lemma join_missing_field_rejected_witness :
  msg_type Scenario.join_nameless = "join-room"
  /\ (msg_roomId Scenario.join_nameless = None
      \/ msg_roomId Scenario.join_nameless = Some ""
      \/ msg_userId Scenario.join_nameless = None
      \/ msg_userId Scenario.join_nameless = Some "")
  /\ onMessage Scenario.all_open Scenario.bob (Some Scenario.join_nameless) Scenario.one
     = done Scenario.one [(Scenario.bob, Error "Room ID and User ID are required")].
Proof.
  assert (Htype : msg_type Scenario.join_nameless = "join-room") by reflexivity.
  assert (Hmissing : msg_roomId Scenario.join_nameless = None
                     \/ msg_roomId Scenario.join_nameless = Some ""
                     \/ msg_userId Scenario.join_nameless = None
                     \/ msg_userId Scenario.join_nameless = Some "")
    by (right; right; right; reflexivity).
  split; [exact Htype|split; [exact Hmissing|]].
  exact (join_missing_field_rejected Scenario.all_open Scenario.bob
           Scenario.join_nameless Scenario.one Htype Hmissing).
Defined.

(** C5, as the code has it.  A leave-room envelope whose [roomId] is absent
    (or empty) is dropped by the guard of [removeUserFromRoom]: nothing is
    sent, so no error reply either, and the table is left as it was. *)
Theorem leave_without_room_ignored
    (rs : WebSocket -> ReadyState) (s : WebSocket) (message : WebRTCMessage)
    (rooms : Rooms) :
  msg_type message = "leave-room" ->
  msg_roomId message = None \/ msg_roomId message = Some "" ->
  onMessage rs s (Some message) rooms = done rooms [].
Proof.
  intros Htype Hmissing. rewrite onMessage_leave by assumption.
  rewrite handleLeaveRoom_eq. apply removeUserFromRoom_no_room.
  now destruct Hmissing as [-> | ->].
Qed.

Lemma leave_without_room_ignored_witness :
  msg_type Scenario.leave_nowhere = "leave-room"
  /\ (msg_roomId Scenario.leave_nowhere = None
      \/ msg_roomId Scenario.leave_nowhere = Some "")
  /\ onMessage Scenario.all_open Scenario.alice (Some Scenario.leave_nowhere) Scenario.two
     = done Scenario.two [].
Proof.
  assert (Htype : msg_type Scenario.leave_nowhere = "leave-room") by reflexivity.
  assert (Hmissing : msg_roomId Scenario.leave_nowhere = None
                     \/ msg_roomId Scenario.leave_nowhere = Some "")
    by (left; reflexivity).
  split; [exact Htype|split; [exact Hmissing|]].
  exact (leave_without_room_ignored Scenario.all_open Scenario.alice
           Scenario.leave_nowhere Scenario.two Htype Hmissing).
Defined.

(** C5, as the specification has it, fails: Alice, in r1 with Bob and with
    an open transport, sends leave-room without a [roomId] and gets no
    error reply. *)
Lemma leave_without_room_no_error_reply :
  ~ exists error,
      In (Scenario.alice, Error error)
         (sent (onMessage Scenario.all_open Scenario.alice
                  (Some Scenario.leave_nowhere) Scenario.two)).
Proof. intros [error H]. exact H. Qed.

(** ** The room lifecycle *)

(** C2.  After every sequence of messages and closes, a room id is listed in
    the table exactly when the room has at least one participant (the
    listing and the count being the ones [getRoomInfo] reports); and the
    removal that takes the last participant out of a room takes the room out
    of the table in the same call. *)
Theorem room_listed_iff_populated (inputs : list Input) (roomId : string) :
  let rooms := table (run inputs []) in
  value (run inputs []) = Some tt
  /\ (JsMap.has roomId rooms = true <-> 1 <= JsMap.size (room_now roomId rooms))
  /\ (exists info,
        value (getRoomInfo roomId rooms) = Some info
        /\ exists_ info = JsMap.has roomId rooms
        /\ participantCount info = JsMap.size (room_now roomId rooms)
        /\ (exists_ info = true <-> 1 <= participantCount info))
  /\ (forall rs u s room,
        JsMap.get roomId rooms = Some room ->
        JsMap.size (JsMap.delete u room) = 0 ->
        removeUserFromRoom rs (Some roomId) u s rooms
        = done (JsMap.delete roomId rooms) []
        /\ JsMap.has roomId (JsMap.delete roomId rooms) = false).
Proof.
  intros rooms. destruct (safe_run inputs [] wf_nil) as [Hvalue Hwf].
  fold rooms in Hwf.
  assert (Hiff : JsMap.has roomId rooms = true
                 <-> 1 <= JsMap.size (room_now roomId rooms)).
  { unfold JsMap.has, room_now.
    destruct (JsMap.get roomId rooms) as [room|] eqn:Hget.
    - apply (wf_get _ _ _ Hwf) in Hget as (_ & _ & Hne & _).
      split; [intros _|reflexivity].
      destruct room; [contradiction|simpl; lia].
    - split; [discriminate|simpl; lia]. }
  split; [exact Hvalue|split; [exact Hiff|split]].
  - unfold getRoomInfo.
    rewrite (bind_step _ _ _ _ _ _ (rooms_get_eq roomId rooms)), after_nil.
    eexists. split; [reflexivity|]. cbn [exists_ participantCount].
    assert (Hlisted : (match JsMap.get roomId rooms with
                       | Some _ => true | None => false end)
                      = JsMap.has roomId rooms) by reflexivity.
    assert (Hcount : (match JsMap.get roomId rooms with
                      | Some r => JsMap.size r | None => 0 end)
                     = JsMap.size (room_now roomId rooms)).
    { unfold room_now. now destruct (JsMap.get roomId rooms). }
    rewrite Hlisted, Hcount. repeat split; apply Hiff.
  - intros rs u s room Hget Hsize.
    destruct (wf_get _ _ _ Hwf Hget) as [Hid _].
    rewrite (removeUserFromRoom_listed rs roomId room u s rooms Hid Hget).
    cbv zeta. rewrite Hsize. cbn [Nat.eqb].
    destruct (JsMap.delete u room) as [|e l] eqn:Hdel; [|discriminate].
    split; [reflexivity|].
    unfold JsMap.has. now rewrite (get_delete_same roomId rooms (proj1 Hwf)).
Qed.

(** ** Facts about sockets and identities *)

Lemma socket_is_true s e : socket_is s e = true <-> socket (snd e) = s.
Proof. unfold socket_is. apply Nat.eqb_eq. Qed.

Lemma find_socket_none s (room : Room) :
  (forall e, In e room -> socket (snd e) <> s) -> find (socket_is s) room = None.
Proof.
  intros H. destruct (find (socket_is s) room) as [e|] eqn:E; [|reflexivity].
  apply find_some in E as [Hin Hs]. apply socket_is_true in Hs.
  now elim (H e Hin).
Qed.

Lemma room_now_In roomId rooms e :
  In e (room_now roomId rooms) -> In (roomId, room_now roomId rooms) rooms.
Proof.
  unfold room_now. destruct (JsMap.get roomId rooms) as [room|] eqn:Hget.
  - intros _. now apply get_In.
  - intros [].
Qed.

Lemma unbound_room_now s rooms roomId :
  unbound s rooms -> find (socket_is s) (room_now roomId rooms) = None.
Proof.
  intros H. apply find_socket_none. intros e He.
  exact (H roomId _ e (room_now_In _ _ _ He) He).
Qed.

Lemma first_user_of_unbound s rooms :
  unbound s rooms -> first_user_of s (JsMap.values rooms) = "".
Proof.
  induction rooms as [|[rid room] rooms IH]; intros H; [reflexivity|].
  cbn [JsMap.values map snd first_user_of]. unfold JsMap.entries.
  rewrite find_socket_none.
  - apply IH. intros r rm e Hin. apply (H r rm e). now right.
  - intros e He. apply (H rid room e); [now left|assumption].
Qed.

Lemma first_user_of_bound s roomId u rooms room p :
  bound_only_as s roomId u rooms ->
  In (roomId, room) rooms -> In (u, p) room -> socket p = s ->
  first_user_of s (JsMap.values rooms) = u.
Proof.
  intros Hbound Hroom Hin Hs.
  induction rooms as [|[rid rm] rooms IH]; [contradiction|].
  cbn [JsMap.values map snd first_user_of]. unfold JsMap.entries.
  destruct (find (socket_is s) rm) as [e|] eqn:E.
  - apply find_some in E as [He Hse]. apply socket_is_true in Hse.
    apply (Hbound rid rm e); [now left|assumption..].
  - destruct Hroom as [Hroom|Hroom].
    + injection Hroom as -> ->.
      apply (find_none _ _ E) in Hin. unfold socket_is in Hin. cbn [snd] in Hin.
      rewrite Hs, Nat.eqb_refl in Hin. discriminate.
    + apply IH; [|assumption].
      intros r rm' e Hin'. apply (Hbound r rm' e). now right.
Qed.


Lemma handleDisconnection_unbound rs s rooms :
  unbound s rooms -> handleDisconnection rs s rooms = done rooms [].
Proof.
  intros H. unfold handleDisconnection.
  rewrite (bind_step _ _ _ _ _ _ (get_rooms_eq _)), after_nil.
  generalize (JsMap.entries rooms) as snapshot.
  induction snapshot as [|[rid rm] snapshot IH]; [reflexivity|].
  cbn [for_each].
  rewrite (bind_step _ _ rooms tt rooms []).
  - now rewrite after_nil.
  - rewrite (bind_step _ _ _ _ _ _ (room_entries_eq rid _)), after_nil.
    unfold JsMap.entries. now rewrite unbound_room_now.
Qed.

Lemma set_same {V} k (v : V) m : JsMap.get k m = Some v -> JsMap.set k v m = m.
Proof.
  induction m as [|[k0 v0] m IH]; simpl; [discriminate|].
  destruct (String.eqb_spec k k0) as [->|Hk].
  - now intros [= ->].
  - intros H. now rewrite IH.
Qed.

Lemma In_set_ok {V} (e : string * V) k v m :
  JsMap.ok m -> In e (JsMap.set k v m) -> e = (k, v) \/ (In e m /\ fst e <> k).
Proof.
  unfold JsMap.ok. induction m as [|[k0 v0] m IH]; simpl.
  - intros _ [<-|[]]. now left.
  - intros Hnd. inversion Hnd as [|? ? Hnot Hnd']; subst.
    destruct (String.eqb_spec k k0) as [->|Hk]; simpl.
    + intros [<-|H]; [now left|]. right. split; [now right|].
      intros E. apply Hnot. rewrite <- E. now apply (in_map fst).
    + intros [<-|H]; [right; split; [now left|simpl; congruence]|].
      apply (IH Hnd') in H as [->|[H1 H2]]; [now left|right; auto].
Qed.

Lemma keys_others {V} k (m : JsMap.t V) :
  filter (fun id => negb (String.eqb id k)) (JsMap.keys m) = JsMap.keys (JsMap.others k m).
Proof.
  unfold JsMap.keys, JsMap.others. induction m as [|[k0 v0] m IH]; simpl; [reflexivity|].
  destruct (String.eqb k0 k); simpl; now rewrite IH.
Qed.

Lemma size_set_others {V} k (v : V) m :
  JsMap.ok m -> JsMap.size (JsMap.set k v m) = S (JsMap.size (JsMap.others k m)).
Proof.
  intros Hok. destruct (JsMap.get k m) as [v0|] eqn:Hget.
  - rewrite size_set_present by now apply get_Some_keys in Hget.
    symmetry. now apply size_others_present with v0.
  - rewrite size_set_absent by assumption. now rewrite others_absent.
Qed.

Lemma open_members_all rs (room : Room) :
  (forall e, In e room -> is_open (rs (socket (snd e))) = true) ->
  open_members rs room = room.
Proof.
  intros H. unfold open_members. induction room as [|e room IH]; [reflexivity|].
  cbn [filter]. rewrite (H e) by now left. f_equal. apply IH.
  intros e' He'. apply H. now right.
Qed.

(** ** Leaving twice *)

(** C1, as the code has it.  On a table the server can reach: the close of a
    connection that holds no participant sends nothing and leaves the table
    as it was; a leave-room for a user id that is not in the named room
    sends no error reply and leaves the table as it was, but it is
    announced: user-left, with that user id and the size of the room, goes
    to every member of the named room whose transport is open (to nobody
    when the room is not listed). *)
Theorem stray_removal
    (rs : WebSocket -> ReadyState) (s : WebSocket) (rooms : Rooms) :
  reachable rooms ->
  (unbound s rooms -> onClose rs s rooms = done rooms [])
  /\ (forall message roomId,
        msg_type message = "leave-room" ->
        msg_roomId message = Some roomId ->
        JsMap.get (leaver s message rooms) (room_now roomId rooms) = None ->
        onMessage rs s (Some message) rooms
        = done rooms
            (deliver (UserLeft (leaver s message rooms)
                               (JsMap.size (room_now roomId rooms)))
                     (open_members rs (room_now roomId rooms)))).
Proof.
  intros Hreach. apply reachable_wf in Hreach as Hwf. split.
  - apply handleDisconnection_unbound.
  - intros message roomId Htype Hroom Habsent.
    rewrite onMessage_leave by assumption. rewrite handleLeaveRoom_eq, Hroom.
    set (u := leaver s message rooms) in *. unfold room_now in *.
    destruct (JsMap.get roomId rooms) as [room|] eqn:Hget.
    + destruct (wf_get _ _ _ Hwf Hget) as (Hid & _ & Hne & _).
      rewrite (removeUserFromRoom_listed rs roomId room u s rooms Hid Hget).
      cbv zeta. rewrite (delete_absent u room Habsent), hears_one.
      rewrite (others_absent u room Habsent).
      destruct (Nat.eqb_spec (JsMap.size room) 0) as [E|_].
      * destruct room; [contradiction|discriminate].
      * unfold done. f_equal. exact (set_same roomId room rooms Hget).
    + destruct (present (Some roomId)) as [r|] eqn:Hp.
      * apply present_Some in Hp as [[= <-] _].
        now rewrite (removeUserFromRoom_unlisted rs roomId u s rooms Hget).
      * now rewrite (removeUserFromRoom_no_room rs (Some roomId) u s rooms Hp).
Qed.

Lemma stray_removal_witness :
  reachable Scenario.one
  /\ unbound Scenario.bob Scenario.one
  /\ onClose Scenario.all_open Scenario.bob Scenario.one = done Scenario.one []
  /\ msg_type Scenario.leave_bob = "leave-room"
  /\ msg_roomId Scenario.leave_bob = Some "r1"
  /\ JsMap.get (leaver Scenario.bob Scenario.leave_bob Scenario.one)
               (room_now "r1" Scenario.one) = None
  /\ onMessage Scenario.all_open Scenario.bob (Some Scenario.leave_bob) Scenario.one
     = done Scenario.one [(Scenario.alice, UserLeft "bob" 1)].
Proof.
  assert (Hunbound : unbound Scenario.bob Scenario.one).
  { intros rid room e [H|[]] He. injection H as <- <-.
    destruct He as [<-|[]]. discriminate. }
  assert (Habsent : JsMap.get (leaver Scenario.bob Scenario.leave_bob Scenario.one)
                      (room_now "r1" Scenario.one) = None) by reflexivity.
  destruct (stray_removal Scenario.all_open Scenario.bob Scenario.one reachable_one)
    as [Hclose Hleave].
  split; [exact reachable_one|split; [exact Hunbound|split; [exact (Hclose Hunbound)|]]].
  split; [reflexivity|split; [reflexivity|split; [exact Habsent|]]].
  exact (Hleave Scenario.leave_bob "r1" eq_refl eq_refl Habsent).
Defined.

(** C1, as the specification has it, fails.  Alice and Bob are in r1 and
    Bob leaves, which removes Bob and tells Alice; when Bob's leave-room
    arrives a second time, Bob is in no room and Alice is told once more. *)
Lemma stray_leave_is_broadcast :
  table (run [Scenario.says Scenario.alice (Scenario.join_room "r1" "alice");
              Scenario.says Scenario.bob (Scenario.join_room "r1" "bob");
              Scenario.says Scenario.bob Scenario.leave_bob] [])
  = Scenario.one
  /\ JsMap.get "bob" (room_now "r1" Scenario.one) = None
  /\ sent (onMessage Scenario.all_open Scenario.bob (Some Scenario.leave_bob)
             Scenario.one)
     = [(Scenario.alice, UserLeft "bob" 1)].
Proof. repeat split. Qed.

(** The dispatch of the three relayed types. *)
Lemma onMessage_relayed rs s message wrap rooms :
  relayed_as (msg_type message) = Some wrap ->
  onMessage rs s (Some message) rooms = relay rs wrap s message rooms.
Proof.
  intros Htype. rewrite onMessage_parsed. unfold handleMessage, relayed_as in *.
  cbv zeta.
  destruct (String.eqb_spec (msg_type message) "join-room") as [E|_].
  { rewrite E in Htype. discriminate. }
  destruct (String.eqb (msg_type message) "offer").
  { now injection Htype as <-. }
  destruct (String.eqb (msg_type message) "answer").
  { now injection Htype as <-. }
  destruct (String.eqb (msg_type message) "ice-candidate").
  { now injection Htype as <-. }
  discriminate.
Qed.

(** ** A relay from a connection that is in no room *)

(** On any table, a relay from a connection that holds no participant
    excludes the key [""] and nothing else. *)
Lemma relay_unbound rs s message wrap roomId rooms :
  relayed_as (msg_type message) = Some wrap ->
  msg_roomId message = Some roomId ->
  roomId <> "" ->
  unbound s rooms ->
  onMessage rs s (Some message) rooms
  = done rooms (deliver (wrap (msg_data message))
                  (open_members rs (JsMap.others "" (room_now roomId rooms)))).
Proof.
  intros Htype Hroom Hid Hunbound.
  rewrite (onMessage_relayed rs s message wrap rooms Htype).
  rewrite (relay_accepted rs wrap s message roomId rooms) by now apply present_Some.
  now rewrite (first_user_of_unbound s rooms Hunbound), hears_one.
Qed.

(** C10.  Let an offer, an answer or an ice-candidate name a room of the
    table and come from a connection that holds no participant, on a table
    the server has reached.  The reverse lookup gives the empty string and
    changes nothing; the exclusion list [['']] matches no member of the
    room, since no participant is stored under the empty user id; the table
    is left as it was and the relayed object is sent to all the members of
    the room, whatever their user id, each send subject to the ready-state
    check of [broadcastToRoom]: every member whose transport is open is
    among the recipients. *)
Theorem relay_from_outsider
    (rs : WebSocket -> ReadyState) (s : WebSocket) (message : WebRTCMessage)
    (wrap : option JSON -> ServerMessage) (roomId : string) (rooms : Rooms) :
  reachable rooms ->
  relayed_as (msg_type message) = Some wrap ->
  msg_roomId message = Some roomId ->
  JsMap.has roomId rooms = true ->
  unbound s rooms ->
  getUserIdBySocket s rooms = {| value := Some ""; table := rooms; sent := [] |}
  /\ (forall e, In e (room_now roomId rooms) -> includes [""] (fst e) = false)
  /\ onMessage rs s (Some message) rooms
     = done rooms (deliver (wrap (msg_data message))
                     (open_members rs (room_now roomId rooms)))
  /\ (forall e, In e (room_now roomId rooms) ->
      is_open (rs (socket (snd e))) = true ->
      In (socket (snd e), wrap (msg_data message))
         (sent (onMessage rs s (Some message) rooms))).
Proof.
  intros Hreach Htype Hroom Hhas Hunbound.
  apply reachable_wf in Hreach as Hwf.
  destruct (room_now_ok rooms roomId Hwf) as [_ Hall].
  assert (Hnames : forall e, In e (room_now roomId rooms) -> fst e <> "")
    by (intros e He; exact (proj1 (proj1 (Forall_forall _ _) Hall e He))).
  assert (Hid : roomId <> "").
  { apply has_true, keys_get in Hhas as [room Hget].
    exact (proj1 (wf_get rooms roomId room Hwf Hget)). }
  assert (Hall_members : JsMap.others "" (room_now roomId rooms) = room_now roomId rooms).
  { unfold JsMap.others. apply forallb_filter_id, forallb_forall.
    intros e He. apply negb_true_iff, String.eqb_neq. now apply Hnames. }
  assert (Hsent : onMessage rs s (Some message) rooms
                  = done rooms (deliver (wrap (msg_data message))
                                  (open_members rs (room_now roomId rooms)))).
  { rewrite (relay_unbound rs s message wrap roomId rooms Htype Hroom Hid Hunbound).
    now rewrite Hall_members. }
  split; [|split; [|split]].
  - unfold getUserIdBySocket.
    rewrite (bind_step _ _ _ _ _ _ (get_rooms_eq _)), after_nil.
    unfold ret. now rewrite (first_user_of_unbound s rooms Hunbound).
  - intros e He. unfold includes. cbn [existsb]. rewrite orb_false_r.
    apply String.eqb_neq. now apply Hnames.
  - exact Hsent.
  - intros e He Hopen. rewrite Hsent. cbn [sent done].
    unfold deliver, open_members. apply in_map_iff. exists e. split; [reflexivity|].
    apply filter_In. now split.
Qed.

Lemma relay_from_outsider_witness :
  reachable Scenario.two
  /\ relayed_as (msg_type (Scenario.offer "r1")) = Some Offer
  /\ msg_roomId (Scenario.offer "r1") = Some "r1"
  /\ JsMap.has "r1" Scenario.two = true
  /\ unbound Scenario.carol Scenario.two
  /\ value (getUserIdBySocket Scenario.carol Scenario.two) = Some ""
  /\ onMessage Scenario.all_open Scenario.carol (Some (Scenario.offer "r1")) Scenario.two
     = done Scenario.two
         [(Scenario.alice, Offer (msg_data (Scenario.offer "r1")));
          (Scenario.bob, Offer (msg_data (Scenario.offer "r1")))].
Proof.
  assert (Hunbound : unbound Scenario.carol Scenario.two).
  { intros rid room e [H|[]] He. injection H as <- <-.
    destruct He as [<-|[<-|[]]]; discriminate. }
  destruct (relay_from_outsider Scenario.all_open Scenario.carol
              (Scenario.offer "r1") Offer "r1" Scenario.two
              reachable_two eq_refl eq_refl eq_refl Hunbound)
    as (Hlookup & _ & Hsent & _).
  split; [exact reachable_two|].
  split; [reflexivity|split; [reflexivity|split; [reflexivity|split; [exact Hunbound|]]]].
  split; [exact (f_equal value Hlookup)|exact Hsent].
Defined.

(** ** Close and leave *)

Lemma wf_split before roomId (room : Room) after_ :
  wf (before ++ (roomId, room) :: after_) ->
  wf before /\ wf after_
  /\ ~ In roomId (JsMap.keys before) /\ ~ In roomId (JsMap.keys after_)
  /\ roomId <> "" /\ room_ok room.
Proof.
  intros [Hok Hall]. unfold JsMap.ok, JsMap.keys in Hok. rewrite map_app in Hok.
  cbn [map fst] in Hok. apply NoDup_remove in Hok as [Hnd Hnot].
  apply Forall_app in Hall as [Hb Ha].
  inversion Ha as [|? ? [Hid Hroom] Ha']; subst. cbn [fst snd] in *.
  repeat split; try assumption.
  - now apply NoDup_app_remove_r in Hnd.
  - now apply NoDup_app_remove_l in Hnd.
  - intros H. apply Hnot, in_or_app. now left.
  - intros H. apply Hnot, in_or_app. now right.
  - apply Hroom.
  - apply Hroom.
  - apply Hroom.
Qed.

Lemma keys_flat_close s (l : Rooms) k :
  In k (JsMap.keys (flat_map (close_entry s) l)) -> In k (JsMap.keys l).
Proof.
  induction l as [|e l IH]; [auto|].
  cbn [flat_map]. unfold JsMap.keys in *. rewrite map_app. cbn [map].
  intros H. apply in_app_or in H as [H|H]; [|right; auto].
  left. fold (JsMap.keys (close_entry s e)) in H.
  destruct (keys_close_entry s e) as [E|E]; rewrite E in H; simpl in H; tauto.
Qed.

Lemma close_unbound rs s (l : Rooms) :
  unbound s l ->
  flat_map (close_entry s) l = l
  /\ flat_map (fun e => close_sends rs s (snd e)) l = [].
Proof.
  induction l as [|[rid room] l IH]; intros H; [now split|].
  assert (Hfind : find (socket_is s) room = None).
  { apply find_socket_none. intros e He. apply (H rid room e); [now left|assumption]. }
  destruct IH as [IH1 IH2].
  { intros r rm e Hin. apply (H r rm e). now right. }
  cbn [flat_map]. unfold close_entry at 1, close_sends at 1. cbn [fst snd].
  rewrite Hfind, IH1, IH2. now split.
Qed.

(** A leave-room for the member [P] of the room [R], on a well-formed
    table. *)
Lemma leave_of_member
    (rs : WebSocket -> ReadyState) (s : WebSocket)
    (before : Rooms) (R : string) (room : Room) (after_ : Rooms) (P : string)
    (message : WebRTCMessage) :
  let rooms := before ++ (R, room) :: after_ in
  let N := JsMap.size (JsMap.others P room) in
  wf rooms ->
  msg_type message = "leave-room" ->
  msg_roomId message = Some R ->
  leaver s message rooms = P ->
  onMessage rs s (Some message) rooms
  = done (before ++ (if Nat.eqb N 0 then [] else [(R, JsMap.others P room)]) ++ after_)
         (deliver (UserLeft P N) (open_members rs (JsMap.others P room))).
Proof.
  intros rooms N Hwf Htype Hroom Hleaver.
  destruct (wf_split _ _ _ _ Hwf) as (_ & _ & Hnb & _ & HR & Hrok & _ & _).
  assert (Hget : JsMap.get R rooms = Some room).
  { unfold rooms. rewrite get_app_absent by assumption. simpl.
    now rewrite String.eqb_refl. }
  rewrite onMessage_leave by assumption. rewrite handleLeaveRoom_eq, Hroom, Hleaver.
  rewrite (removeUserFromRoom_listed rs R room P s rooms HR Hget). cbv zeta.
  rewrite hears_one, (others_delete P room Hrok), (delete_others P room Hrok).
  fold N. unfold done. f_equal.
  destruct (Nat.eqb N 0).
  - unfold rooms. rewrite delete_app_absent by assumption. simpl.
    now rewrite String.eqb_refl.
  - unfold rooms. rewrite set_app_absent by assumption. simpl.
    now rewrite String.eqb_refl.
Qed.

(** The close of the connection that is found as [P] in the room [R], on a
    well-formed table. *)
Lemma close_of_member
    (rs : WebSocket -> ReadyState) (s : WebSocket)
    (before : Rooms) (R : string) (room : Room) (after_ : Rooms) (P : string) :
  let rooms := before ++ (R, room) :: after_ in
  let N := JsMap.size (JsMap.others P room) in
  wf rooms ->
  identity_in s room = Some P ->
  onClose rs s rooms
  = done (flat_map (close_entry s) before
          ++ (if Nat.eqb N 0 then [] else [(R, JsMap.others P room)])
          ++ flat_map (close_entry s) after_)
         (flat_map (fun e => close_sends rs s (snd e)) before
          ++ deliver (UserLeft P N) (open_members rs (JsMap.others P room))
          ++ flat_map (fun e => close_sends rs s (snd e)) after_).
Proof.
  intros rooms N Hwf Hid.
  destruct (wf_split _ _ _ _ Hwf) as (_ & _ & _ & _ & _ & Hrok & _ & _).
  unfold identity_in in Hid.
  destruct (find (socket_is s) room) as [e|] eqn:Hfind; [|discriminate].
  cbn [option_map] in Hid. injection Hid as Hid.
  unfold onClose.
  rewrite (handleDisconnection_eq rs s rooms (proj1 Hwf) (wf_ids rooms Hwf)).
  unfold rooms. rewrite !flat_map_app. cbn [flat_map snd].
  unfold close_entry at 2, close_sends at 2. cbn [fst snd].
  rewrite Hfind, Hid. cbv zeta.
  now rewrite hears_one, (others_delete P room Hrok), (delete_others P room Hrok).
Qed.

(** The entry of [R] once [P] is out of it. *)
Lemma get_after_removal (R : string) (rest : Room) (l1 l2 : Rooms) :
  ~ In R (JsMap.keys l1) -> ~ In R (JsMap.keys l2) ->
  JsMap.get R (l1 ++ (if Nat.eqb (JsMap.size rest) 0 then [] else [(R, rest)]) ++ l2)
  = if Nat.eqb (JsMap.size rest) 0 then None else Some rest.
Proof.
  intros H1 H2. rewrite get_app_absent by assumption.
  destruct (Nat.eqb (JsMap.size rest) 0); simpl.
  - now apply get_None.
  - now rewrite String.eqb_refl.
Qed.

(** C3, as the code has it.  Let [P] be the participant of the room [R]
    under which the close handler finds the connection [s] in [R]: the first
    entry of [R] that holds [s], which is the only one when [s] has joined
    [R] under one user id.  Let [N] be the number of the other members of
    [R], and take a leave-room message of [P] for [R].
    The message and the close of [s] have the same effect on [R]: both send
    user-left with [P] and [N] to the other members whose transport is open,
    both leave [R] with the other members, and [R] is taken out of the table
    exactly when [N = 0].  The close also visits the rooms listed before and
    after [R]; when [s] holds no participant there, the two outcomes are
    equal. *)
Theorem close_acts_as_leave
    (rs : WebSocket -> ReadyState) (s : WebSocket)
    (before : Rooms) (R : string) (room : Room) (after_ : Rooms) (P : string)
    (message : WebRTCMessage) :
  let rooms := before ++ (R, room) :: after_ in
  let N := JsMap.size (JsMap.others P room) in
  let told := deliver (UserLeft P N) (open_members rs (JsMap.others P room)) in
  reachable rooms ->
  identity_in s room = Some P ->
  msg_type message = "leave-room" ->
  msg_roomId message = Some R ->
  leaver s message rooms = P ->
  onMessage rs s (Some message) rooms
  = done (before ++ (if Nat.eqb N 0 then [] else [(R, JsMap.others P room)]) ++ after_) told
  /\ value (onClose rs s rooms) = Some tt
  /\ JsMap.get R (table (onClose rs s rooms))
     = JsMap.get R (table (onMessage rs s (Some message) rooms))
  /\ JsMap.get R (table (onClose rs s rooms))
     = (if Nat.eqb N 0 then None else Some (JsMap.others P room))
  /\ sent (onClose rs s rooms)
     = sent (onClose rs s before)
       ++ sent (onMessage rs s (Some message) rooms)
       ++ sent (onClose rs s after_)
  /\ (unbound s before -> unbound s after_ ->
      onClose rs s rooms = onMessage rs s (Some message) rooms).
Proof.
  intros rooms N told Hreach Hid Htype Hroom Hleaver.
  apply reachable_wf in Hreach as Hwf.
  destruct (wf_split _ _ _ _ Hwf) as (Hwb & Hwa & Hnb & Hna & _).
  assert (Hleave := leave_of_member rs s before R room after_ P message
                      Hwf Htype Hroom Hleaver).
  assert (Hclose := close_of_member rs s before R room after_ P Hwf Hid).
  cbv zeta in Hleave, Hclose. fold rooms N told in Hleave, Hclose.
  assert (HcloseR : JsMap.get R (table (onClose rs s rooms))
                    = if Nat.eqb N 0 then None else Some (JsMap.others P room)).
  { rewrite Hclose. cbn [table done].
    apply get_after_removal; intros H; apply keys_flat_close in H; contradiction. }
  split; [exact Hleave|].
  split; [now rewrite Hclose|].
  split.
  { rewrite HcloseR, Hleave. cbn [table done]. symmetry.
    now apply get_after_removal. }
  split; [exact HcloseR|].
  split.
  - rewrite Hclose, Hleave. unfold onClose.
    rewrite (handleDisconnection_eq rs s before (proj1 Hwb) (wf_ids before Hwb)).
    rewrite (handleDisconnection_eq rs s after_ (proj1 Hwa) (wf_ids after_ Hwa)).
    reflexivity.
  - intros Hub Hua. rewrite Hclose, Hleave.
    destruct (close_unbound rs s before Hub) as [-> ->].
    destruct (close_unbound rs s after_ Hua) as [-> ->].
    now rewrite app_nil_r.
Qed.

Lemma close_acts_as_leave_witness :
  reachable ([] ++ ("r1", [Scenario.member Scenario.alice "alice";
                           Scenario.member Scenario.bob "bob"]) :: [])
  /\ identity_in Scenario.bob
       [Scenario.member Scenario.alice "alice"; Scenario.member Scenario.bob "bob"]
     = Some "bob"
  /\ msg_type Scenario.leave_bob = "leave-room"
  /\ msg_roomId Scenario.leave_bob = Some "r1"
  /\ leaver Scenario.bob Scenario.leave_bob Scenario.two = "bob"
  /\ onClose Scenario.all_open Scenario.bob Scenario.two
     = onMessage Scenario.all_open Scenario.bob (Some Scenario.leave_bob) Scenario.two
  /\ sent (onClose Scenario.all_open Scenario.bob Scenario.two)
     = [(Scenario.alice, UserLeft "bob" 1)]
  /\ table (onClose Scenario.all_open Scenario.bob Scenario.two) = Scenario.one.
Proof.
  assert (Hnone : unbound Scenario.bob []) by (intros rid rm e []).
  destruct (close_acts_as_leave Scenario.all_open Scenario.bob [] "r1"
              [Scenario.member Scenario.alice "alice"; Scenario.member Scenario.bob "bob"]
              [] "bob" Scenario.leave_bob reachable_two eq_refl eq_refl eq_refl eq_refl)
    as (Hleave & _ & _ & _ & Hsent & Hsame).
  split; [exact reachable_two|].
  split; [reflexivity|]. split; [reflexivity|]. split; [reflexivity|].
  split; [reflexivity|]. split; [exact (Hsame Hnone Hnone)|].
  split; [exact Hsent|].
  exact (eq_trans (f_equal table (Hsame Hnone Hnone)) (f_equal table Hleave)).
Defined.

(** C3, as stated, fails for a participant whose connection holds an
    earlier entry of the room.  Socket 1 joins r1 as a and then as b, and
    socket 2 joins as c.  The leave-room of b removes b and announces b to
    the two others.  The close of b's transport, socket 1, stops at the
    first entry of r1 that holds the socket: it removes a and announces a,
    and b stays in the room. *)
Lemma close_removes_first_identity :
  table (run [Scenario.says Scenario.alice (Scenario.join_room "r1" "a");
              Scenario.says Scenario.alice (Scenario.join_room "r1" "b");
              Scenario.says Scenario.bob (Scenario.join_room "r1" "c")] [])
  = Scenario.shared
  /\ option_map socket (JsMap.get "b" (room_now "r1" Scenario.shared))
     = Some Scenario.alice
  /\ JsMap.size (JsMap.others "b" (room_now "r1" Scenario.shared)) = 2
  /\ onMessage Scenario.all_open Scenario.alice
       (Some (Scenario.leave_room (Some "r1") (Some "b"))) Scenario.shared
     = done [("r1", [Scenario.member Scenario.alice "a"; Scenario.member Scenario.bob "c"])]
         [(Scenario.alice, UserLeft "b" 2); (Scenario.bob, UserLeft "b" 2)]
  /\ onClose (Scenario.closed Scenario.alice) Scenario.alice Scenario.shared
     = done [("r1", [Scenario.member Scenario.alice "b"; Scenario.member Scenario.bob "c"])]
         [(Scenario.bob, UserLeft "a" 2)]
  /\ onClose Scenario.all_open Scenario.alice Scenario.shared
     = done [("r1", [Scenario.member Scenario.alice "b"; Scenario.member Scenario.bob "c"])]
         [(Scenario.alice, UserLeft "a" 2); (Scenario.bob, UserLeft "a" 2)].
Proof. repeat split. Qed.

(** ** Joining *)

(** An accepted join, in terms of the members that were there before. *)
Lemma handleJoinRoom_others rs s message roomId u rooms :
  wf rooms ->
  present (msg_roomId message) = Some roomId ->
  present (msg_userId message) = Some u ->
  let existing := JsMap.others u (room_now roomId rooms) in
  let k := JsMap.size existing in
  handleJoinRoom rs s message rooms
  = done (JsMap.set roomId
            (JsMap.set u (joiner s u (msg_data message)) (room_now roomId rooms)) rooms)
         (deliver (UserJoined u (S k)) (open_members rs existing)
          ++ (if is_open (rs s)
              then [(s, JoinedRoom roomId (S k) (JsMap.keys existing))]
              else [])).
Proof.
  intros Hwf Hr Hu existing k.
  rewrite (handleJoinRoom_accepted rs s message roomId u rooms Hr Hu). cbv zeta.
  destruct (room_now_ok rooms roomId Hwf) as [Hok _].
  rewrite hears_one, keys_others, others_set.
  rewrite (size_set_others u _ _ Hok). reflexivity.
Qed.

(** C6.  A user joins a room that has [k] other members.  The table gets
    the joiner's entry; each of the [k] members is sent user-joined with the
    joiner's user id and [participantCount = k + 1], and the joiner is sent
    joined-room with [participantCount = k + 1] and the user ids of the [k]
    JsMap.others, every send subject to the ready-state check.  With all these
    transports open that is one user-joined per member followed by the
    reply, and the reply alone when [k = 0]. *)
Theorem join_notice_and_reply
    (rs : WebSocket -> ReadyState) (s : WebSocket) (message : WebRTCMessage)
    (roomId u : string) (rooms : Rooms) :
  let existing := JsMap.others u (room_now roomId rooms) in
  let k := JsMap.size existing in
  reachable rooms ->
  msg_type message = "join-room" ->
  msg_roomId message = Some roomId -> roomId <> "" ->
  msg_userId message = Some u -> u <> "" ->
  onMessage rs s (Some message) rooms
  = done (JsMap.set roomId
            (JsMap.set u (joiner s u (msg_data message)) (room_now roomId rooms)) rooms)
         (deliver (UserJoined u (k + 1)) (open_members rs existing)
          ++ (if is_open (rs s)
              then [(s, JoinedRoom roomId (k + 1) (JsMap.keys existing))]
              else []))
  /\ length (JsMap.keys existing) = k
  /\ ~ In u (JsMap.keys existing)
  /\ (is_open (rs s) = true ->
      (forall e, In e existing -> is_open (rs (socket (snd e))) = true) ->
      sent (onMessage rs s (Some message) rooms)
      = deliver (UserJoined u (k + 1)) existing
        ++ [(s, JoinedRoom roomId (k + 1) (JsMap.keys existing))]
      /\ length (deliver (UserJoined u (k + 1)) existing) = k
      /\ (k = 0 ->
          sent (onMessage rs s (Some message) rooms) = [(s, JoinedRoom roomId 1 [])])).
Proof.
  intros existing k Hreach Htype Hroom Hrid Huser Huid.
  apply reachable_wf in Hreach as Hwf.
  assert (Hr : present (msg_roomId message) = Some roomId) by now apply present_Some.
  assert (Hu : present (msg_userId message) = Some u) by now apply present_Some.
  assert (Hjoin := handleJoinRoom_others rs s message roomId u rooms Hwf Hr Hu).
  cbv zeta in Hjoin. fold existing in Hjoin. fold k in Hjoin.
  rewrite <- Nat.add_1_r in Hjoin.
  rewrite onMessage_join by assumption.
  split; [exact Hjoin|].
  split; [unfold JsMap.keys, k, JsMap.size; apply length_map|].
  split.
  { intros H. apply in_map_iff in H as [e [He Hin]].
    apply In_others in Hin as [_ Hne]. contradiction. }
  intros Hs Hopen. rewrite Hjoin. cbn [sent done].
  rewrite Hs, (open_members_all rs existing Hopen).
  split; [reflexivity|].
  split; [unfold deliver, k, JsMap.size; apply length_map|].
  intros Hk. unfold k, JsMap.size in Hk.
  destruct existing; [reflexivity|discriminate].
Qed.

Lemma join_notice_and_reply_witness :
  reachable Scenario.one
  /\ msg_type (Scenario.join_room "r1" "bob") = "join-room"
  /\ msg_roomId (Scenario.join_room "r1" "bob") = Some "r1" /\ "r1" <> ""
  /\ msg_userId (Scenario.join_room "r1" "bob") = Some "bob" /\ "bob" <> ""
  /\ is_open (Scenario.all_open Scenario.bob) = true
  /\ (forall e, In e (JsMap.others "bob" (room_now "r1" Scenario.one)) ->
                is_open (Scenario.all_open (socket (snd e))) = true)
  /\ sent (onMessage Scenario.all_open Scenario.bob
             (Some (Scenario.join_room "r1" "bob")) Scenario.one)
     = [(Scenario.alice, UserJoined "bob" 2);
        (Scenario.bob, JoinedRoom "r1" 2 ["alice"])].
Proof.
  assert (Hr : "r1" <> "") by discriminate.
  assert (Hu : "bob" <> "") by discriminate.
  assert (Hopen : forall e, In e (JsMap.others "bob" (room_now "r1" Scenario.one)) ->
                            is_open (Scenario.all_open (socket (snd e))) = true)
    by reflexivity.
  destruct (join_notice_and_reply Scenario.all_open Scenario.bob
              (Scenario.join_room "r1" "bob") "r1" "bob"
              Scenario.one reachable_one eq_refl eq_refl Hr eq_refl Hu)
    as (_ & _ & _ & Hall).
  destruct (Hall eq_refl Hopen) as (Hsent & _ & _).
  split; [exact reachable_one|]. split; [reflexivity|].
  split; [reflexivity|]. split; [exact Hr|].
  split; [reflexivity|]. split; [exact Hu|].
  split; [reflexivity|]. split; [exact Hopen|].
  exact Hsent.
Defined.

(** C8, as the code has it.  When a user id that is in a room joins that
    room again, the new entry takes the place of the earlier one: the room
    keeps its size and its user ids, the entry of the user holds the new
    connection, and the other entries are as before.  The earlier connection
    is left without any room record when it is another connection than the
    new one and the overwritten entry was the only one it held in the
    table. *)
Theorem rejoin_overwrites
    (rs : WebSocket -> ReadyState) (s : WebSocket) (message : WebRTCMessage)
    (roomId u : string) (rooms : Rooms) (room : Room) (old : RoomParticipant) :
  let latest := joiner s u (msg_data message) in
  let room' := JsMap.set u latest room in
  reachable rooms ->
  msg_type message = "join-room" ->
  msg_roomId message = Some roomId ->
  msg_userId message = Some u ->
  JsMap.get roomId rooms = Some room ->
  JsMap.get u room = Some old ->
  value (onMessage rs s (Some message) rooms) = Some tt
  /\ table (onMessage rs s (Some message) rooms) = JsMap.set roomId room' rooms
  /\ JsMap.keys (JsMap.set roomId room' rooms) = JsMap.keys rooms
  /\ JsMap.get roomId (JsMap.set roomId room' rooms) = Some room'
  /\ JsMap.size room' = JsMap.size room
  /\ JsMap.keys room' = JsMap.keys room
  /\ JsMap.get u room' = Some latest
  /\ socket latest = s
  /\ (forall v, v <> u -> JsMap.get v room' = JsMap.get v room)
  /\ (socket old <> s ->
      bound_only_as (socket old) roomId u rooms ->
      unbound (socket old) (JsMap.set roomId room' rooms)).
Proof.
  intros latest room' Hreach Htype Hroom Huser Hget Hold.
  apply reachable_wf in Hreach as Hwf.
  destruct (wf_get _ _ _ Hwf Hget) as (Hrid & Hok & _ & Hall).
  assert (Huid : u <> "").
  { apply get_In in Hold.
    exact (proj1 (proj1 (Forall_forall _ _) Hall _ Hold)). }
  assert (Hr : present (msg_roomId message) = Some roomId) by now apply present_Some.
  assert (Hu : present (msg_userId message) = Some u) by now apply present_Some.
  rewrite onMessage_join by assumption.
  rewrite (handleJoinRoom_accepted rs s message roomId u rooms Hr Hu). cbv zeta.
  rewrite (room_now_listed _ _ _ Hget). fold latest. fold room'. cbn [value table done].
  split; [reflexivity|]. split; [reflexivity|].
  split; [apply keys_set_present; now apply get_Some_keys in Hget|].
  split; [apply get_set_same|].
  split; [apply size_set_present; now apply get_Some_keys in Hold|].
  split; [apply keys_set_present; now apply get_Some_keys in Hold|].
  split; [apply get_set_same|].
  split; [reflexivity|].
  split; [intros v Hv; now apply get_set_other|].
  intros Hother Hbound rid rm e Hin He Hs.
  apply (In_set_ok _ _ _ _ (proj1 Hwf)) in Hin as [Hin|[Hin Hne]].
  - injection Hin as -> ->.
    apply (In_set_ok _ _ _ _ Hok) in He as [->|[He Hne]].
    + now apply Hother.
    + apply get_In in Hget.
      destruct (Hbound roomId room e Hget He Hs) as [_ Hu']. contradiction.
  - destruct (Hbound rid rm e Hin He Hs) as [Hr' _]. contradiction.
Qed.

Lemma rejoin_overwrites_witness :
  reachable Scenario.two
  /\ msg_type (Scenario.join_room "r1" "bob") = "join-room"
  /\ msg_roomId (Scenario.join_room "r1" "bob") = Some "r1"
  /\ msg_userId (Scenario.join_room "r1" "bob") = Some "bob"
  /\ JsMap.get "r1" Scenario.two
     = Some [Scenario.member Scenario.alice "alice"; Scenario.member Scenario.bob "bob"]
  /\ JsMap.get "bob"
       [Scenario.member Scenario.alice "alice"; Scenario.member Scenario.bob "bob"]
     = Some (snd (Scenario.member Scenario.bob "bob"))
  /\ socket (snd (Scenario.member Scenario.bob "bob")) <> Scenario.carol
  /\ bound_only_as (socket (snd (Scenario.member Scenario.bob "bob"))) "r1" "bob"
       Scenario.two
  /\ table (onMessage Scenario.all_open Scenario.carol
              (Some (Scenario.join_room "r1" "bob")) Scenario.two)
     = [("r1", [Scenario.member Scenario.alice "alice";
                Scenario.member Scenario.carol "bob"])]
  /\ unbound Scenario.bob
       (table (onMessage Scenario.all_open Scenario.carol
                 (Some (Scenario.join_room "r1" "bob")) Scenario.two)).
Proof.
  assert (Hne : socket (snd (Scenario.member Scenario.bob "bob")) <> Scenario.carol)
    by discriminate.
  assert (Hbound : bound_only_as (socket (snd (Scenario.member Scenario.bob "bob")))
                     "r1" "bob" Scenario.two).
  { intros rid room e [H|[]] He Hs. injection H as <- <-.
    destruct He as [<-|[<-|[]]]; [discriminate|now split]. }
  destruct (rejoin_overwrites Scenario.all_open Scenario.carol
              (Scenario.join_room "r1" "bob") "r1" "bob" Scenario.two _
              (snd (Scenario.member Scenario.bob "bob"))
              reachable_two eq_refl eq_refl eq_refl eq_refl eq_refl)
    as (_ & Htable & _ & _ & _ & _ & _ & _ & _ & Hgone).
  split; [exact reachable_two|].
  split; [reflexivity|]. split; [reflexivity|]. split; [reflexivity|].
  split; [reflexivity|]. split; [reflexivity|].
  split; [exact Hne|]. split; [exact Hbound|].
  split; [exact Htable|].
  rewrite Htable. exact (Hgone Hne Hbound).
Defined.

(** C8, as stated, fails in its last clause.  Bob's socket has joined r1
    and r2 as bob; when Carol's socket joins r1 as bob, Bob's entry of r1 is
    overwritten and his socket is still a participant of r2.  And when Bob
    joins r1 once more with the socket he is registered with, the earlier
    connection is the new one and keeps its record. *)
Lemma earlier_connection_keeps_a_record :
  table (run [Scenario.says Scenario.alice (Scenario.join_room "r1" "alice");
              Scenario.says Scenario.bob (Scenario.join_room "r1" "bob");
              Scenario.says Scenario.bob (Scenario.join_room "r2" "bob")] [])
  = Scenario.two_rooms
  /\ option_map socket (JsMap.get "bob" (room_now "r1" Scenario.two_rooms))
     = Some Scenario.bob
  /\ table (onMessage Scenario.all_open Scenario.carol
              (Some (Scenario.join_room "r1" "bob")) Scenario.two_rooms)
     = [("r1", [Scenario.member Scenario.alice "alice"; Scenario.member Scenario.carol "bob"]);
        ("r2", [Scenario.member Scenario.bob "bob"])]
  /\ ~ unbound Scenario.bob
         (table (onMessage Scenario.all_open Scenario.carol
                   (Some (Scenario.join_room "r1" "bob")) Scenario.two_rooms))
  /\ table (run [Scenario.says Scenario.alice (Scenario.join_room "r1" "alice");
                 Scenario.says Scenario.bob (Scenario.join_room "r1" "bob")] [])
     = Scenario.two
  /\ table (onMessage Scenario.all_open Scenario.bob
              (Some (Scenario.join_room "r1" "bob")) Scenario.two)
     = Scenario.two
  /\ ~ unbound Scenario.bob
         (table (onMessage Scenario.all_open Scenario.bob
                   (Some (Scenario.join_room "r1" "bob")) Scenario.two)).
Proof.
  split; [reflexivity|]. split; [reflexivity|]. split; [reflexivity|].
  split.
  { intros H.
    apply (H "r2" [Scenario.member Scenario.bob "bob"] (Scenario.member Scenario.bob "bob"));
      [right; now left|now left|reflexivity]. }
  split; [reflexivity|]. split; [reflexivity|].
  intros H.
  apply (H "r1" [Scenario.member Scenario.alice "alice"; Scenario.member Scenario.bob "bob"]
           (Scenario.member Scenario.bob "bob"));
    [now left|right; now left|reflexivity].
Qed.

(** ** Who hears a relay *)




(** * Further properties of the server *)

(** ** Replies to what the server cannot handle *)

(** X1.  A message whose [type] is none of the five [case] labels is
    answered by "Unknown message type: <type>" to the sender alone and
    changes nothing. *)
Theorem unknown_type_rejected
    (rs : WebSocket -> ReadyState) (s : WebSocket) (message : WebRTCMessage)
    (rooms : Rooms) :
  known_type (msg_type message) = false ->
  onMessage rs s (Some message) rooms
  = done rooms (if is_open (rs s)
                then [(s, Error ("Unknown message type: " ++ msg_type message))]
                else []).
Proof.
  intros Hunknown. unfold known_type in Hunknown. cbn [existsb] in Hunknown.
  repeat (apply orb_false_iff in Hunknown as [? Hunknown]).
  rewrite onMessage_parsed. unfold handleMessage. cbv zeta.
  repeat match goal with H : String.eqb _ _ = false |- _ => rewrite H; clear H end.
  unfold sendError. apply sendToUser_eq.
Qed.

Lemma unknown_type_rejected_witness :
  known_type (msg_type Scenario.wave) = false
  /\ onMessage Scenario.all_open Scenario.alice (Some Scenario.wave) Scenario.two
     = done Scenario.two [(Scenario.alice, Error "Unknown message type: wave")].
Proof.
  split; [reflexivity|].
  exact (unknown_type_rejected Scenario.all_open Scenario.alice Scenario.wave
           Scenario.two eq_refl).
Defined.

(** X2.  An offer, an answer or an ice-candidate whose [roomId] is absent or
    empty is answered by "Room ID is required" to the sender alone and
    changes nothing. *)
Theorem relay_missing_room_rejected
    (rs : WebSocket -> ReadyState) (s : WebSocket) (message : WebRTCMessage)
    (wrap : option JSON -> ServerMessage) (rooms : Rooms) :
  relayed_as (msg_type message) = Some wrap ->
  msg_roomId message = None \/ msg_roomId message = Some "" ->
  onMessage rs s (Some message) rooms
  = done rooms (if is_open (rs s) then [(s, Error "Room ID is required")] else []).
Proof.
  intros Htype Hmissing.
  rewrite (onMessage_relayed rs s message wrap rooms Htype).
  apply relay_rejected. now destruct Hmissing as [-> | ->].
Qed.

Lemma relay_missing_room_rejected_witness :
  relayed_as (msg_type Scenario.offer_nowhere) = Some Offer
  /\ (msg_roomId Scenario.offer_nowhere = None
      \/ msg_roomId Scenario.offer_nowhere = Some "")
  /\ onMessage Scenario.all_open Scenario.alice (Some Scenario.offer_nowhere)
       Scenario.two
     = done Scenario.two [(Scenario.alice, Error "Room ID is required")].
Proof.
  assert (Hmissing : msg_roomId Scenario.offer_nowhere = None
                     \/ msg_roomId Scenario.offer_nowhere = Some "")
    by (left; reflexivity).
  split; [reflexivity|split; [exact Hmissing|]].
  exact (relay_missing_room_rejected Scenario.all_open Scenario.alice
           Scenario.offer_nowhere Offer Scenario.two eq_refl Hmissing).
Defined.

(** X3.  An offer, an answer or an ice-candidate never changes the table,
    whoever sends it; when it names a room that is not listed it is dropped
    without any reply. *)
Theorem relay_changes_nothing
    (rs : WebSocket -> ReadyState) (s : WebSocket) (message : WebRTCMessage)
    (wrap : option JSON -> ServerMessage) (rooms : Rooms) :
  relayed_as (msg_type message) = Some wrap ->
  value (onMessage rs s (Some message) rooms) = Some tt
  /\ table (onMessage rs s (Some message) rooms) = rooms
  /\ (forall roomId,
        msg_roomId message = Some roomId -> roomId <> "" ->
        JsMap.get roomId rooms = None ->
        onMessage rs s (Some message) rooms = done rooms []).
Proof.
  intros Htype. rewrite (onMessage_relayed rs s message wrap rooms Htype).
  destruct (present (msg_roomId message)) as [r|] eqn:Hp.
  - rewrite (relay_accepted rs wrap s message r rooms Hp).
    split; [reflexivity|split; [reflexivity|]].
    intros roomId Hroom Hne Hget.
    apply present_Some in Hp as [Hp _]. rewrite Hroom in Hp. injection Hp as <-.
    unfold room_now. now rewrite Hget.
  - rewrite (relay_rejected rs wrap s message rooms Hp).
    split; [reflexivity|split; [reflexivity|]].
    intros roomId Hroom Hne _.
    assert (Hq : present (msg_roomId message) = Some roomId) by now apply present_Some.
    rewrite Hq in Hp. discriminate.
Qed.

Lemma relay_changes_nothing_witness :
  relayed_as (msg_type (Scenario.offer "r9")) = Some Offer
  /\ msg_roomId (Scenario.offer "r9") = Some "r9"
  /\ "r9" <> ""
  /\ JsMap.get "r9" Scenario.two = None
  /\ onMessage Scenario.all_open Scenario.alice (Some (Scenario.offer "r9"))
       Scenario.two
     = done Scenario.two [].
Proof.
  assert (Hne : "r9" <> "") by discriminate.
  split; [reflexivity|split; [reflexivity|split; [exact Hne|split; [reflexivity|]]]].
  exact (proj2 (proj2 (relay_changes_nothing Scenario.all_open Scenario.alice
                         (Scenario.offer "r9") Offer Scenario.two eq_refl))
           "r9" eq_refl Hne eq_refl).
Defined.

(** ** What is sent, and to whom *)

Lemma deliver_In message (l : Room) x :
  In x (deliver message l) <-> exists e, In e l /\ x = (socket (snd e), message).
Proof.
  unfold deliver. rewrite in_map_iff. split; intros [e [H1 H2]]; exists e; auto.
Qed.

Lemma relayed_as_not_error type wrap d :
  relayed_as type = Some wrap -> is_error (wrap d) = false.
Proof.
  unfold relayed_as.
  destruct (String.eqb type "offer"); [now intros [= <-]|].
  destruct (String.eqb type "answer"); [now intros [= <-]|].
  destruct (String.eqb type "ice-candidate"); [now intros [= <-]|discriminate].
Qed.

(** A parsed message gets one of the three error replies, alone and with the
    table as it was, or no error reply at all. *)
Lemma handleMessage_error_or_not rs s message rooms :
  (exists error,
      handleMessage rs s message rooms
      = done rooms (if is_open (rs s) then [(s, Error error)] else [])
      /\ error <> "Invalid message format")
  \/ (forall x, In x (sent (handleMessage rs s message rooms)) ->
                is_error (snd x) = false).
Proof.
  assert (Hdeliver : forall m (l : Room) x,
             is_error m = false -> In x (deliver m l) -> is_error (snd x) = false).
  { intros m l x Hm Hx. apply deliver_In in Hx as [e [_ ->]]. exact Hm. }
  unfold handleMessage. cbv zeta.
  destruct (String.eqb (msg_type message) "join-room").
  { destruct (present (msg_roomId message)) as [r|] eqn:Hr;
      [destruct (present (msg_userId message)) as [u|] eqn:Hu|].
    - right. rewrite (handleJoinRoom_accepted rs s message r u rooms Hr Hu).
      cbv zeta. cbn [sent done]. intros x Hx. apply in_app_or in Hx as [Hx|Hx].
      + now apply Hdeliver in Hx.
      + destruct (is_open (rs s)); [|contradiction].
        destruct Hx as [<-|[]]. reflexivity.
    - left. eexists. split; [apply handleJoinRoom_rejected; now right|discriminate].
    - left. eexists. split; [apply handleJoinRoom_rejected; now left|discriminate]. }
  assert (Hrelay : forall wrap,
             (forall d, is_error (wrap d) = false) ->
             (exists error,
                 relay rs wrap s message rooms
                 = done rooms (if is_open (rs s) then [(s, Error error)] else [])
                 /\ error <> "Invalid message format")
             \/ (forall x, In x (sent (relay rs wrap s message rooms)) ->
                           is_error (snd x) = false)).
  { intros wrap Hwrap. destruct (present (msg_roomId message)) as [r|] eqn:Hr.
    - right. rewrite (relay_accepted rs wrap s message r rooms Hr). cbn [sent done].
      intros x Hx. now apply Hdeliver in Hx.
    - left. eexists. split; [now apply relay_rejected|discriminate]. }
  destruct (String.eqb (msg_type message) "offer"); [now apply Hrelay|].
  destruct (String.eqb (msg_type message) "answer"); [now apply Hrelay|].
  destruct (String.eqb (msg_type message) "ice-candidate"); [now apply Hrelay|].
  destruct (String.eqb (msg_type message) "leave-room").
  { right. rewrite handleLeaveRoom_eq.
    destruct (present (msg_roomId message)) as [r|] eqn:Hr.
    - apply present_Some in Hr as [-> Hne].
      destruct (JsMap.get r rooms) as [room|] eqn:Hget.
      + rewrite (removeUserFromRoom_listed rs r room _ s rooms Hne Hget).
        cbv zeta. cbn [sent done]. intros x Hx. now apply Hdeliver in Hx.
      + rewrite (removeUserFromRoom_unlisted rs r _ s rooms Hget). intros x [].
    - rewrite (removeUserFromRoom_no_room rs _ _ s rooms Hr). intros x []. }
  left. eexists. split.
  - unfold sendError. apply sendToUser_eq.
  - simpl. discriminate.
Qed.




Lemma all_sent_bind {A B} (P : Send -> Prop) (m : Handler A) (k : A -> Handler B) :
  all_sent P m -> (forall a, all_sent P (k a)) -> all_sent P (bind m k).
Proof.
  intros Hm Hk rooms. unfold bind.
  destruct (value (m rooms)); cbn [sent]; [|apply Hm].
  apply Forall_app. split; [apply Hm|apply Hk].
Qed.

Lemma all_sent_for_each {A} (P : Send -> Prop) (l : list A) (body : A -> Handler unit) :
  (forall a, all_sent P (body a)) -> all_sent P (for_each l body).
Proof.
  intros Hbody. induction l as [|a l IH]; [intros rooms; constructor|].
  cbn [for_each]. apply all_sent_bind; [apply Hbody|intros _; exact IH].
Qed.

Lemma all_sent_silent {A} (P : Send -> Prop) (h : Handler A) :
  (forall rooms, sent (h rooms) = []) -> all_sent P h.
Proof. intros H rooms. rewrite H. constructor. Qed.

Section OpenOnly.
Variable rs : WebSocket -> ReadyState.

Lemma deliver_open message exclude (room : Room) :
  Forall (to_open rs) (deliver message (filter (hears rs exclude) room)).
Proof.
  apply Forall_forall. intros x Hx. apply deliver_In in Hx as [e [He ->]].
  apply filter_In in He as [_ He]. unfold hears in He.
  apply andb_true_iff in He as [_ He]. exact He.
Qed.

Lemma reply_open s message :
  Forall (to_open rs) (if is_open (rs s) then [(s, message)] else []).
Proof.
  destruct (is_open (rs s)) eqn:E; constructor; [exact E|constructor].
Qed.

Lemma open_removeUserFromRoom roomId u s :
  all_sent (to_open rs) (removeUserFromRoom rs roomId u s).
Proof.
  intros rooms. destruct (present roomId) as [r|] eqn:Hr.
  - apply present_Some in Hr as [-> Hne].
    destruct (JsMap.get r rooms) as [room|] eqn:Hget.
    + rewrite (removeUserFromRoom_listed rs r room u s rooms Hne Hget).
      apply deliver_open.
    + rewrite (removeUserFromRoom_unlisted rs r u s rooms Hget). constructor.
  - rewrite (removeUserFromRoom_no_room rs roomId u s rooms Hr). constructor.
Qed.

Lemma open_handleMessage s message : all_sent (to_open rs) (handleMessage rs s message).
Proof.
  assert (Hrelay : forall wrap, all_sent (to_open rs) (relay rs wrap s message)).
  { intros wrap rooms. destruct (present (msg_roomId message)) as [r|] eqn:Hr.
    - rewrite (relay_accepted rs wrap s message r rooms Hr). apply deliver_open.
    - rewrite (relay_rejected rs wrap s message rooms Hr). apply reply_open. }
  unfold handleMessage. cbv zeta.
  destruct (String.eqb (msg_type message) "join-room").
  { intros rooms.
    destruct (present (msg_roomId message)) as [r|] eqn:Hr;
      [destruct (present (msg_userId message)) as [u|] eqn:Hu|].
    - rewrite (handleJoinRoom_accepted rs s message r u rooms Hr Hu). cbv zeta.
      cbn [sent done]. apply Forall_app. split; [apply deliver_open|apply reply_open].
    - rewrite (handleJoinRoom_rejected rs s message rooms) by now right.
      apply reply_open.
    - rewrite (handleJoinRoom_rejected rs s message rooms) by now left.
      apply reply_open. }
  destruct (String.eqb (msg_type message) "offer"); [apply Hrelay|].
  destruct (String.eqb (msg_type message) "answer"); [apply Hrelay|].
  destruct (String.eqb (msg_type message) "ice-candidate"); [apply Hrelay|].
  destruct (String.eqb (msg_type message) "leave-room").
  { intros rooms. rewrite handleLeaveRoom_eq. apply open_removeUserFromRoom. }
  intros rooms. unfold sendError. rewrite sendToUser_eq. apply reply_open.
Qed.

Lemma open_handleDisconnection s : all_sent (to_open rs) (handleDisconnection rs s).
Proof.
  unfold handleDisconnection.
  apply all_sent_bind; [apply all_sent_silent; reflexivity|]. intros snapshot.
  apply all_sent_for_each. intros [roomId room].
  apply all_sent_bind; [apply all_sent_silent; reflexivity|]. intros entries.
  destruct (find (socket_is s) entries) as [[u p]|].
  - apply open_removeUserFromRoom.
  - apply all_sent_silent. reflexivity.
Qed.
End OpenOnly.

(** X6.  Whatever the event and the table, the server sends only on sockets
    whose [readyState] is [OPEN] when the event is handled. *)
Theorem sends_only_on_open_sockets (i : Input) (rooms : Rooms) :
  Forall (fun x : Send => is_open (fst i (fst x)) = true) (sent (handle i rooms)).
Proof.
  destruct i as [rs [s [message|]|s]]; unfold handle; cbn [fst snd].
  - rewrite onMessage_parsed. apply open_handleMessage.
  - rewrite onMessage_malformed.
    apply (reply_open rs s (Error "Invalid message format")).
  - apply open_handleDisconnection.
Qed.

(** ** Facts about bound sockets *)

Lemma bound_room_now s roomId rooms e :
  In e (room_now roomId rooms) -> socket (snd e) = s -> bound s rooms.
Proof.
  intros He Hs. exists roomId, (room_now roomId rooms), e.
  split; [now apply room_now_In in He|now split].
Qed.

Lemma first_user_of_cases s (rooms : Rooms) :
  (exists roomId room e,
      In (roomId, room) rooms /\ In e room /\ socket (snd e) = s
      /\ first_user_of s (JsMap.values rooms) = fst e)
  \/ (unbound s rooms /\ first_user_of s (JsMap.values rooms) = "").
Proof.
  induction rooms as [|[rid room] rooms IH].
  - right. split; [intros r rm e []|reflexivity].
  - cbn [JsMap.values map snd first_user_of]. unfold JsMap.entries.
    destruct (find (socket_is s) room) as [e|] eqn:E.
    + left. apply find_some in E as [He Hs]. apply socket_is_true in Hs.
      exists rid, room, e. repeat split; auto. now left.
    + destruct IH as [(r & rm & e & Hin & He & Hs & Heq)|[Hun Heq]].
      * left. exists r, rm, e. repeat split; auto. now right.
      * right. split; [|exact Heq].
        intros r rm e [Hin|Hin] He.
        -- injection Hin as <- <-. intros Hs.
           apply (find_none _ _ E) in He. unfold socket_is in He.
           rewrite Hs, Nat.eqb_refl in He. discriminate.
        -- now apply (Hun r rm e).
Qed.

(** X7.  On a table the server can reach, the reverse lookup gives the empty
    string exactly when the connection holds no participant, and otherwise
    the user id of a participant that holds the connection. *)
Theorem lookup_empty_iff_unbound (s : WebSocket) (rooms : Rooms) :
  reachable rooms ->
  (value (getUserIdBySocket s rooms) = Some "" <-> unbound s rooms)
  /\ (forall u,
        value (getUserIdBySocket s rooms) = Some u -> u <> "" ->
        exists roomId room p,
          JsMap.get roomId rooms = Some room
          /\ JsMap.get u room = Some p /\ socket p = s).
Proof.
  intros Hreach. apply reachable_wf in Hreach as Hwf.
  assert (Hvalue : value (getUserIdBySocket s rooms)
                   = Some (first_user_of s (JsMap.values rooms))) by reflexivity.
  rewrite Hvalue.
  destruct (first_user_of_cases s rooms)
    as [(r & rm & [u p] & Hin & He & Hs & Heq)|[Hun Heq]].
  - rewrite Heq. cbn [fst snd] in *.
    assert (Hget : JsMap.get r rooms = Some rm) by now apply In_get; [apply Hwf|].
    destruct (wf_get _ _ _ Hwf Hget) as (_ & Hok & _ & Hall).
    assert (Hu : u <> "") by exact (proj1 (proj1 (Forall_forall _ _) Hall _ He)).
    split.
    + split; [intros [= E]; contradiction|].
      intros Hun. now elim (Hun r rm (u, p) Hin He).
    + intros v [= <-] _. exists r, rm, p. repeat split; auto. now apply In_get.
  - rewrite Heq. split; [tauto|]. intros v [= <-] H. now elim H.
Qed.

Lemma lookup_empty_iff_unbound_witness :
  reachable Scenario.two
  /\ unbound Scenario.carol Scenario.two
  /\ value (getUserIdBySocket Scenario.carol Scenario.two) = Some "".
Proof.
  assert (Hunbound : unbound Scenario.carol Scenario.two).
  { intros rid room e [H|[]] He. injection H as <- <-.
    destruct He as [<-|[<-|[]]]; discriminate. }
  split; [exact reachable_two|split; [exact Hunbound|]].
  exact (proj2 (proj1 (lookup_empty_iff_unbound Scenario.carol Scenario.two
                         reachable_two)) Hunbound).
Defined.

(** X8.  Every table the server can reach has distinct room ids, and every
    listed room has a non-empty id, at least one participant, distinct user
    ids, and each participant stored under its own non-empty [userId]. *)
Theorem reachable_tables_well_formed (rooms : Rooms) :
  reachable rooms ->
  NoDup (JsMap.keys rooms)
  /\ (forall roomId room,
        JsMap.get roomId rooms = Some room ->
        roomId <> "" /\ room <> [] /\ NoDup (JsMap.keys room)
        /\ (forall u p, JsMap.get u room = Some p -> u <> "" /\ userId p = u)).
Proof.
  intros Hreach. apply reachable_wf in Hreach as Hwf.
  split; [apply Hwf|]. intros roomId room Hget.
  destruct (wf_get _ _ _ Hwf Hget) as (Hid & Hok & Hne & Hall).
  repeat split; try assumption.
  - apply get_In in H. exact (proj1 (proj1 (Forall_forall _ _) Hall _ H)).
  - apply get_In in H. exact (proj2 (proj1 (Forall_forall _ _) Hall _ H)).
Qed.

Lemma reachable_tables_well_formed_witness :
  reachable Scenario.two
  /\ NoDup (JsMap.keys Scenario.two)
  /\ (forall roomId room,
        JsMap.get roomId Scenario.two = Some room -> roomId <> "" /\ room <> []).
Proof.
  destruct (reachable_tables_well_formed Scenario.two reachable_two) as [Hnd Hall].
  split; [exact reachable_two|split; [exact Hnd|]].
  intros roomId room Hget. destruct (Hall roomId room Hget) as (H1 & H2 & _).
  now split.
Defined.

(** X9.  On a table the server can reach, every send of an event goes to the
    socket the event comes from or to a socket that holds a participant: the
    server never writes to a connection that is neither. *)
Theorem sends_reach_sender_or_members (i : Input) (rooms : Rooms) :
  reachable rooms ->
  Forall (fun x : Send => fst x = sender i \/ bound (fst x) rooms)
         (sent (handle i rooms)).
Proof.
  intros Hreach. apply reachable_wf in Hreach as Hwf.
  assert (Hmembers : forall m (l : Room) roomId x,
             (forall e, In e l -> In e (room_now roomId rooms)) ->
             In x (deliver m l) -> bound (fst x) rooms).
  { intros m l roomId x Hl Hx. apply deliver_In in Hx as [e [He ->]].
    now apply (bound_room_now _ roomId rooms e); [apply Hl|]. }
  assert (Hreply : forall (s : WebSocket) (m : ServerMessage) (x : Send),
             In x (if is_open (fst i s) then [(s, m)] else []) -> fst x = s).
  { intros s m x Hx. destruct (is_open (fst i s)); [|contradiction].
    now destruct Hx as [<-|[]]. }
  apply Forall_forall. intros x Hx.
  destruct i as [rs [s [message|]|s]]; unfold handle, sender in *; cbn [fst snd] in *.
  - rewrite onMessage_parsed in Hx.
    destruct (handleMessage_error_or_not rs s message rooms)
      as [[error [Heq _]]|_].
    { rewrite Heq in Hx. left. now apply Hreply in Hx. }
    unfold handleMessage in Hx. cbv zeta in Hx.
    assert (Hrelay : forall wrap, In x (sent (relay rs wrap s message rooms)) ->
                                  fst x = s \/ bound (fst x) rooms).
    { intros wrap Hin. destruct (present (msg_roomId message)) as [r|] eqn:Hr.
      - rewrite (relay_accepted rs wrap s message r rooms Hr) in Hin.
        right. apply (Hmembers _ _ r x) in Hin; [exact Hin|].
        intros e He. now apply filter_In in He.
      - rewrite (relay_rejected rs wrap s message rooms Hr) in Hin.
        left. now apply Hreply in Hin. }
    destruct (String.eqb (msg_type message) "join-room").
    { destruct (present (msg_roomId message)) as [r|] eqn:Hr;
        [destruct (present (msg_userId message)) as [u|] eqn:Hu|].
      - rewrite (handleJoinRoom_accepted rs s message r u rooms Hr Hu) in Hx.
        cbv zeta in Hx. cbn [sent done] in Hx.
        rewrite hears_one, others_set in Hx.
        apply in_app_or in Hx as [Hx|Hx].
        + right. apply (Hmembers _ _ r x) in Hx; [exact Hx|].
          intros e He. apply filter_In in He as [He _].
          now apply In_others in He.
        + left. now apply Hreply in Hx.
      - rewrite (handleJoinRoom_rejected rs s message rooms) in Hx by now right.
        left. now apply Hreply in Hx.
      - rewrite (handleJoinRoom_rejected rs s message rooms) in Hx by now left.
        left. now apply Hreply in Hx. }
    destruct (String.eqb (msg_type message) "offer"); [now apply Hrelay in Hx|].
    destruct (String.eqb (msg_type message) "answer"); [now apply Hrelay in Hx|].
    destruct (String.eqb (msg_type message) "ice-candidate");
      [now apply Hrelay in Hx|].
    destruct (String.eqb (msg_type message) "leave-room").
    { rewrite handleLeaveRoom_eq in Hx.
      destruct (present (msg_roomId message)) as [r|] eqn:Hr.
      - apply present_Some in Hr as [Hr Hne]. rewrite Hr in Hx.
        destruct (JsMap.get r rooms) as [room|] eqn:Hget.
        + rewrite (removeUserFromRoom_listed rs r room _ s rooms Hne Hget) in Hx.
          cbv zeta in Hx. cbn [sent done] in Hx.
          right. apply (Hmembers _ _ r x) in Hx; [exact Hx|].
          intros e He. apply filter_In in He as [He _]. apply In_delete in He.
          now rewrite (room_now_listed _ _ _ Hget).
        + rewrite (removeUserFromRoom_unlisted rs r _ s rooms Hget) in Hx.
          contradiction.
      - rewrite (removeUserFromRoom_no_room rs _ _ s rooms Hr) in Hx.
        contradiction. }
    unfold sendError in Hx. rewrite sendToUser_eq in Hx.
    left. now apply Hreply in Hx.
  - rewrite onMessage_malformed in Hx. left. now apply Hreply in Hx.
  - unfold onClose in Hx.
    rewrite (handleDisconnection_eq rs s rooms (proj1 Hwf) (wf_ids rooms Hwf)) in Hx.
    cbn [sent done] in Hx. apply in_flat_map in Hx as [[rid room] [Hin Hx]].
    cbn [snd] in Hx. unfold close_sends in Hx.
    destruct (find (socket_is s) room) as [p|]; [|contradiction].
    cbv zeta in Hx. apply deliver_In in Hx as [e [He ->]].
    apply filter_In in He as [He _]. apply In_delete in He.
    right. exists rid, room, e. auto.
Qed.

Lemma sends_reach_sender_or_members_witness :
  reachable Scenario.two
  /\ Forall (fun x : Send =>
               fst x = Scenario.carol \/ bound (fst x) Scenario.two)
            (sent (handle (Scenario.says Scenario.carol (Scenario.join_room "r1" "carol"))
                     Scenario.two)).
Proof.
  split; [exact reachable_two|].
  exact (sends_reach_sender_or_members
           (Scenario.says Scenario.carol (Scenario.join_room "r1" "carol"))
           Scenario.two reachable_two).
Defined.

(** ** Join, leave and the queries together *)

Lemma delete_last {V} k (v : V) (m : JsMap.t V) :
  JsMap.get k m = None -> JsMap.delete k (m ++ [(k, v)]) = m.
Proof.
  intros H. rewrite delete_app_absent by now apply get_None.
  simpl. rewrite String.eqb_refl. apply app_nil_r.
Qed.

(** X10.  Round trip: on a table the server can reach, the join of a user
    that is not in the room followed by that user's leave-room gives the
    table back, whether the join created the room or not. *)
Theorem join_then_leave_restores
    (rs1 rs2 : WebSocket -> ReadyState) (s1 s2 : WebSocket)
    (join leave : WebRTCMessage) (roomId u : string) (rooms : Rooms) :
  reachable rooms ->
  msg_type join = "join-room" ->
  msg_roomId join = Some roomId -> roomId <> "" ->
  msg_userId join = Some u -> u <> "" ->
  JsMap.get u (room_now roomId rooms) = None ->
  msg_type leave = "leave-room" ->
  msg_roomId leave = Some roomId ->
  msg_userId leave = Some u ->
  table (onMessage rs2 s2 (Some leave)
           (table (onMessage rs1 s1 (Some join) rooms)))
  = rooms.
Proof.
  intros Hreach Hjt Hjr Hrid Hju Huid Habsent Hlt Hlr Hlu.
  apply reachable_wf in Hreach as Hwf.
  assert (Hpr : present (Some roomId) = Some roomId) by now apply present_Some.
  assert (Hpu : present (Some u) = Some u) by now apply present_Some.
  rewrite (onMessage_join rs1 s1 join rooms Hjt).
  rewrite (handleJoinRoom_accepted rs1 s1 join roomId u rooms)
    by (rewrite ?Hjr, ?Hju; assumption).
  cbv zeta. cbn [table done].
  set (p := joiner s1 u (msg_data join)).
  set (room0 := room_now roomId rooms) in *.
  rewrite (onMessage_leave rs2 s2 leave _ Hlt), handleLeaveRoom_eq, Hlr.
  unfold leaver. rewrite Hlu, Hpu.
  match goal with
  | |- table (removeUserFromRoom _ _ _ _ ?T) = _ =>
      assert (Hget1 : JsMap.get roomId T = Some (JsMap.set u p room0))
        by apply get_set_same
  end.
  rewrite (removeUserFromRoom_listed rs2 roomId _ u s2 _ Hrid Hget1).
  cbv zeta. cbn [table done].
  rewrite (set_absent u p room0 Habsent), (delete_last u p room0 Habsent).
  unfold room0, room_now.
  destruct (JsMap.get roomId rooms) as [room|] eqn:Hget.
  - destruct (wf_get _ _ _ Hwf Hget) as (_ & _ & Hne & _).
    destruct (Nat.eqb_spec (JsMap.size room) 0) as [E|_].
    { destruct room; [contradiction|discriminate]. }
    etransitivity; [apply set_set|]. now apply set_same.
  - cbn [JsMap.size length Nat.eqb app].
    etransitivity; [apply f_equal, (set_absent roomId _ rooms Hget)|].
    now apply delete_last.
Qed.

Lemma join_then_leave_restores_witness :
  reachable Scenario.one
  /\ msg_type (Scenario.join_room "r1" "bob") = "join-room"
  /\ msg_roomId (Scenario.join_room "r1" "bob") = Some "r1" /\ "r1" <> ""
  /\ msg_userId (Scenario.join_room "r1" "bob") = Some "bob" /\ "bob" <> ""
  /\ JsMap.get "bob" (room_now "r1" Scenario.one) = None
  /\ msg_type Scenario.leave_bob = "leave-room"
  /\ msg_roomId Scenario.leave_bob = Some "r1"
  /\ msg_userId Scenario.leave_bob = Some "bob"
  /\ table (onMessage Scenario.all_open Scenario.bob (Some Scenario.leave_bob)
              (table (onMessage Scenario.all_open Scenario.bob
                        (Some (Scenario.join_room "r1" "bob")) Scenario.one)))
     = Scenario.one.
Proof.
  assert (Hr : "r1" <> "") by discriminate.
  assert (Hu : "bob" <> "") by discriminate.
  split; [exact reachable_one|]. split; [reflexivity|].
  split; [reflexivity|]. split; [exact Hr|].
  split; [reflexivity|]. split; [exact Hu|].
  split; [reflexivity|]. split; [reflexivity|].
  split; [reflexivity|]. split; [reflexivity|].
  exact (join_then_leave_restores Scenario.all_open Scenario.all_open
           Scenario.bob Scenario.bob (Scenario.join_room "r1" "bob")
           Scenario.leave_bob "r1" "bob" Scenario.one reachable_one
           eq_refl eq_refl Hr eq_refl Hu eq_refl eq_refl eq_refl eq_refl).
Defined.

(** X11.  After an accepted join on a table the server can reach, the room
    query reports the room as existing, with one participant more than the
    other members and with the joiner listed: at its earlier place when the
    user id was in the room, last otherwise; and the reverse lookup of a
    connection that held no participant before gives the joiner's user
    id. *)
Theorem join_then_query
    (rs : WebSocket -> ReadyState) (s : WebSocket) (message : WebRTCMessage)
    (roomId u : string) (rooms : Rooms) :
  reachable rooms ->
  msg_type message = "join-room" ->
  msg_roomId message = Some roomId -> roomId <> "" ->
  msg_userId message = Some u -> u <> "" ->
  value (getRoomInfo roomId (table (onMessage rs s (Some message) rooms)))
  = Some {| exists_ := true;
            participantCount :=
              JsMap.size (JsMap.others u (room_now roomId rooms)) + 1;
            participants :=
              if JsMap.has u (room_now roomId rooms)
              then JsMap.keys (room_now roomId rooms)
              else JsMap.keys (room_now roomId rooms) ++ [u] |}
  /\ (unbound s rooms ->
      value (getUserIdBySocket s (table (onMessage rs s (Some message) rooms)))
      = Some u).
Proof.
  intros Hreach Htype Hroom Hrid Huser Huid.
  apply reachable_wf in Hreach as Hwf.
  rewrite (onMessage_join rs s message rooms Htype).
  rewrite (handleJoinRoom_accepted rs s message roomId u rooms)
    by now apply present_Some.
  cbv zeta. cbn [table done].
  set (p := joiner s u (msg_data message)).
  set (room0 := room_now roomId rooms).
  destruct (room_now_ok rooms roomId Hwf) as [Hok _]. fold room0 in Hok.
  split.
  - unfold getRoomInfo.
    rewrite (bind_step _ _ _ _ _ _ (rooms_get_eq roomId _)), after_nil.
    rewrite get_set_same. unfold ret. cbn [value]. do 2 f_equal.
    + rewrite (size_set_others u p room0 Hok). symmetry. apply Nat.add_1_r.
    + unfold JsMap.has. destruct (JsMap.get u room0) as [q|] eqn:Hget.
      * apply keys_set_present. now apply get_Some_keys in Hget.
      * rewrite (set_absent u p room0 Hget). unfold JsMap.keys.
        now rewrite map_app.
  - intros Hunbound.
    assert (Hvalue : forall t, value (getUserIdBySocket s t)
                               = Some (first_user_of s (JsMap.values t)))
      by reflexivity.
    rewrite Hvalue. f_equal.
    apply (first_user_of_bound s roomId u _ (JsMap.set u p room0) p).
    + intros rid rm e Hin He Hs.
      apply In_set in Hin as [Hin|Hin].
      * injection Hin as -> ->.
        apply In_set in He as [->|He]; [now split|].
        now elim (Hunbound roomId room0 e (room_now_In _ _ _ He) He).
      * now elim (Hunbound rid rm e Hin He).
    + apply get_In, get_set_same.
    + apply get_In, get_set_same.
    + reflexivity.
Qed.

Lemma join_then_query_witness :
  reachable Scenario.one
  /\ msg_type (Scenario.join_room "r1" "bob") = "join-room"
  /\ msg_roomId (Scenario.join_room "r1" "bob") = Some "r1" /\ "r1" <> ""
  /\ msg_userId (Scenario.join_room "r1" "bob") = Some "bob" /\ "bob" <> ""
  /\ value (getRoomInfo "r1"
             (table (onMessage Scenario.all_open Scenario.bob
                       (Some (Scenario.join_room "r1" "bob")) Scenario.one)))
     = Some {| exists_ := true; participantCount := 2;
               participants := ["alice"; "bob"] |}.
Proof.
  assert (Hr : "r1" <> "") by discriminate.
  assert (Hu : "bob" <> "") by discriminate.
  split; [exact reachable_one|]. split; [reflexivity|].
  split; [reflexivity|]. split; [exact Hr|].
  split; [reflexivity|]. split; [exact Hu|].
  exact (proj1 (join_then_query Scenario.all_open Scenario.bob
                  (Scenario.join_room "r1" "bob") "r1" "bob" Scenario.one
                  reachable_one eq_refl eq_refl Hr eq_refl Hu)).
Defined.

(** ** The close handler *)

Lemma size_zero_nil {V} (m : JsMap.t V) : JsMap.size m = 0 -> m = [].
Proof. destruct m; [reflexivity|discriminate]. Qed.

(** The entry of a room after the close of [s]. *)
Lemma get_flat_close s (rooms : Rooms) roomId :
  JsMap.ok rooms ->
  JsMap.get roomId (flat_map (close_entry s) rooms)
  = match JsMap.get roomId rooms with
    | Some room => JsMap.get roomId (close_entry s (roomId, room))
    | None => None
    end.
Proof.
  unfold JsMap.ok. induction rooms as [|[rid room] rooms IH]; [reflexivity|].
  intros Hnd. inversion Hnd as [|? ? Hnot Hnd']; subst.
  cbn [flat_map JsMap.get].
  destruct (String.eqb_spec roomId rid) as [->|Hne].
  - destruct (keys_close_entry s (rid, room)) as [E|E]; cbn [fst] in E.
    + destruct (close_entry s (rid, room)); [|discriminate]. cbn [app JsMap.get].
      apply get_None. intros H. apply keys_flat_close in H. contradiction.
    + destruct (close_entry s (rid, room)) as [|[k v] [|? ?]]; try discriminate.
      injection E as ->. cbn [app JsMap.get]. now rewrite String.eqb_refl.
  - rewrite get_app_absent; [now apply IH|].
    destruct (keys_close_entry s (rid, room)) as [E|E]; rewrite E; cbn [fst].
    + intros [].
    + intros [E'|[]]. now apply Hne.
Qed.

(** X12.  On a table the server can reach, the close of a connection takes
    out of each room the first participant that holds the connection and
    nothing else: the other participants of the room stay, in their order,
    and a room without the connection is left as it is. *)
Theorem close_per_room
    (rs : WebSocket -> ReadyState) (s : WebSocket) (rooms : Rooms)
    (roomId : string) :
  reachable rooms ->
  room_now roomId (table (onClose rs s rooms))
  = match find (socket_is s) (room_now roomId rooms) with
    | Some e => JsMap.others (fst e) (room_now roomId rooms)
    | None => room_now roomId rooms
    end.
Proof.
  intros Hreach. apply reachable_wf in Hreach as Hwf. unfold onClose.
  rewrite (handleDisconnection_eq rs s rooms (proj1 Hwf) (wf_ids rooms Hwf)).
  cbn [table done]. unfold room_now at 1.
  rewrite (get_flat_close s rooms roomId (proj1 Hwf)). unfold room_now.
  destruct (JsMap.get roomId rooms) as [room|] eqn:Hget; [|reflexivity].
  destruct (wf_get _ _ _ Hwf Hget) as (_ & Hok & _ & _).
  unfold close_entry. cbn [fst snd].
  destruct (find (socket_is s) room) as [e|].
  - cbv zeta. rewrite (delete_others (fst e) room Hok).
    destruct (Nat.eqb_spec (JsMap.size (JsMap.others (fst e) room)) 0) as [E|_].
    + cbn [JsMap.get]. symmetry. now apply size_zero_nil.
    + cbn [JsMap.get]. now rewrite String.eqb_refl.
  - cbn [JsMap.get]. now rewrite String.eqb_refl.
Qed.

Lemma close_per_room_witness :
  reachable Scenario.two
  /\ room_now "r1" (table (onClose Scenario.all_open Scenario.alice Scenario.two))
     = [Scenario.member Scenario.bob "bob"].
Proof.
  split; [exact reachable_two|].
  exact (close_per_room Scenario.all_open Scenario.alice Scenario.two "r1"
           reachable_two).
Defined.

Lemma held_by_zero s (room : Room) e :
  held_by s room = 0 -> In e room -> socket (snd e) <> s.
Proof.
  unfold held_by. intros Hzero He Hs.
  assert (Hin : In e (filter (socket_is s) room)).
  { apply filter_In. split; [exact He|now apply socket_is_true]. }
  destruct (filter (socket_is s) room); [contradiction|discriminate].
Qed.

Lemma others_of_first_holder s (room : Room) p e :
  JsMap.ok room ->
  find (socket_is s) room = Some p ->
  held_by s room <= 1 ->
  In e (JsMap.others (fst p) room) -> socket (snd e) <> s.
Proof.
  unfold JsMap.ok, held_by.
  induction room as [|e0 room IH]; [discriminate|].
  intros Hnd Hfind Hheld He. inversion Hnd as [|? ? Hnot Hnd']; subst.
  cbn [find filter] in Hfind, Hheld.
  destruct (socket_is s e0) eqn:E0.
  - injection Hfind as <-. cbn [length] in Hheld.
    apply In_others in He as [He Hne]. destruct He as [<-|He]; [now elim Hne|].
    apply (held_by_zero s room e); [unfold held_by; lia|exact He].
  - apply In_others in He as [He Hne]. destruct He as [<-|He].
    + intros Hs. apply socket_is_true in Hs. congruence.
    + apply IH; try assumption. apply In_others. now split.
Qed.

(** X13.  On a table the server can reach in which no room holds the
    connection under more than one user id, the close leaves the connection
    without any participant, and a second close sends nothing and changes
    nothing. *)
Theorem close_twice
    (rs rs' : WebSocket -> ReadyState) (s : WebSocket) (rooms : Rooms) :
  reachable rooms ->
  (forall roomId room, In (roomId, room) rooms -> held_by s room <= 1) ->
  unbound s (table (onClose rs s rooms))
  /\ onClose rs' s (table (onClose rs s rooms))
     = done (table (onClose rs s rooms)) [].
Proof.
  intros Hreach Hheld. apply reachable_wf in Hreach as Hwf.
  assert (Hunbound : unbound s (table (onClose rs s rooms))).
  { unfold onClose.
    rewrite (handleDisconnection_eq rs s rooms (proj1 Hwf) (wf_ids rooms Hwf)).
    cbn [table done]. intros rid rm e Hin He.
    apply in_flat_map in Hin as [[rid0 room] [Hin0 Hin]].
    assert (Hget : JsMap.get rid0 rooms = Some room)
      by now apply In_get; [apply Hwf|].
    destruct (wf_get _ _ _ Hwf Hget) as (_ & Hok & _ & _).
    unfold close_entry in Hin. cbn [fst snd] in Hin.
    destruct (find (socket_is s) room) as [p|] eqn:Hfind.
    - cbv zeta in Hin. rewrite (delete_others (fst p) room Hok) in Hin.
      destruct (Nat.eqb (JsMap.size (JsMap.others (fst p) room)) 0);
        [contradiction|].
      destruct Hin as [[= <- <-]|[]].
      exact (others_of_first_holder s room p e Hok Hfind (Hheld rid0 room Hin0) He).
    - destruct Hin as [[= <- <-]|[]]. intros Hs.
      apply (find_none _ _ Hfind) in He. unfold socket_is in He.
      rewrite Hs, Nat.eqb_refl in He. discriminate. }
  split; [exact Hunbound|]. now apply handleDisconnection_unbound.
Qed.

Lemma close_twice_witness :
  reachable Scenario.two
  /\ (forall roomId room,
        In (roomId, room) Scenario.two -> held_by Scenario.bob room <= 1)
  /\ onClose Scenario.all_open Scenario.bob
       (table (onClose Scenario.all_open Scenario.bob Scenario.two))
     = done Scenario.one [].
Proof.
  assert (Hheld : forall roomId room,
             In (roomId, room) Scenario.two -> held_by Scenario.bob room <= 1).
  { intros rid room [H|[]]. injection H as <- <-. apply le_n. }
  split; [exact reachable_two|split; [exact Hheld|]].
  exact (proj2 (close_twice Scenario.all_open Scenario.all_open Scenario.bob
                  Scenario.two reachable_two Hheld)).
Defined.

(** ** What an event can change *)

(** The table after a parsed message: as it was, or changed at the room the
    message names. *)
Lemma handleMessage_table rs s message rooms :
  table (handleMessage rs s message rooms) = rooms
  \/ (exists roomId room room',
        msg_roomId message = Some roomId
        /\ room_now roomId rooms = room
        /\ ((msg_type message = "join-room"
             /\ table (handleMessage rs s message rooms)
                = JsMap.set roomId room' rooms)
            \/ (JsMap.get roomId rooms = Some room
                /\ (forall e, In e room' -> In e room)
                /\ (table (handleMessage rs s message rooms)
                    = JsMap.set roomId room' rooms
                    \/ (room' = []
                        /\ table (handleMessage rs s message rooms)
                           = JsMap.delete roomId rooms))))).
Proof.
  assert (Hrelay : forall wrap, table (relay rs wrap s message rooms) = rooms).
  { intros wrap. destruct (present (msg_roomId message)) as [r|] eqn:Hr.
    - now rewrite (relay_accepted rs wrap s message r rooms Hr).
    - now rewrite (relay_rejected rs wrap s message rooms Hr). }
  unfold handleMessage. cbv zeta.
  destruct (String.eqb_spec (msg_type message) "join-room") as [Hjoin|_].
  { destruct (present (msg_roomId message)) as [r|] eqn:Hr;
      [destruct (present (msg_userId message)) as [u|] eqn:Hu|].
    - right. rewrite (handleJoinRoom_accepted rs s message r u rooms Hr Hu).
      cbv zeta. cbn [table done]. apply present_Some in Hr as [Hr _].
      exists r, (room_now r rooms). eexists.
      split; [exact Hr|split; [reflexivity|left; split; [exact Hjoin|reflexivity]]].
    - left. now rewrite (handleJoinRoom_rejected rs s message rooms) by now right.
    - left. now rewrite (handleJoinRoom_rejected rs s message rooms) by now left. }
  destruct (String.eqb (msg_type message) "offer"); [left; apply Hrelay|].
  destruct (String.eqb (msg_type message) "answer"); [left; apply Hrelay|].
  destruct (String.eqb (msg_type message) "ice-candidate"); [left; apply Hrelay|].
  destruct (String.eqb (msg_type message) "leave-room").
  { rewrite handleLeaveRoom_eq.
    destruct (present (msg_roomId message)) as [r|] eqn:Hr.
    - apply present_Some in Hr as [Hr Hne]. rewrite Hr.
      destruct (JsMap.get r rooms) as [room|] eqn:Hget.
      + right.
        rewrite (removeUserFromRoom_listed rs r room _ s rooms Hne Hget).
        cbv zeta. cbn [table done].
        exists r, room. eexists.
        split; [reflexivity|split; [now apply room_now_listed|right]].
        split; [exact Hget|split; [intros e; apply In_delete|]].
        destruct (Nat.eqb_spec
                    (JsMap.size (JsMap.delete (leaver s message rooms) room)) 0)
          as [E|_]; [right|left; reflexivity].
        split; [now apply size_zero_nil|reflexivity].
      + left. now rewrite (removeUserFromRoom_unlisted rs r _ s rooms Hget).
    - left. now rewrite (removeUserFromRoom_no_room rs _ _ s rooms Hr). }
  left. unfold sendError. now rewrite sendToUser_eq.
Qed.

(** X14.  A message changes no room but the one it names: the entry of every
    other room id is the same before and after, on any table. *)
Theorem message_touches_named_room_only
    (rs : WebSocket -> ReadyState) (s : WebSocket)
    (parsed : option WebRTCMessage) (rooms : Rooms) (other : string) :
  (forall message, parsed = Some message -> msg_roomId message <> Some other) ->
  JsMap.get other (table (onMessage rs s parsed rooms)) = JsMap.get other rooms.
Proof.
  intros Hother. destruct parsed as [message|].
  - specialize (Hother message eq_refl). rewrite onMessage_parsed.
    destruct (handleMessage_table rs s message rooms)
      as [->|(r & room & room' & Hr & _ & [[_ ->]|(_ & _ & [->|[_ ->]])])];
      try reflexivity.
    + apply get_set_other. congruence.
    + apply get_set_other. congruence.
    + apply get_delete_other. congruence.
  - now rewrite onMessage_malformed.
Qed.

Lemma message_touches_named_room_only_witness :
  (forall message,
      Some (Scenario.join_room "r2" "carol") = Some message ->
      msg_roomId message <> Some "r1")
  /\ JsMap.get "r1"
       (table (onMessage Scenario.all_open Scenario.carol
                 (Some (Scenario.join_room "r2" "carol")) Scenario.two))
     = JsMap.get "r1" Scenario.two.
Proof.
  assert (Hother : forall message,
             Some (Scenario.join_room "r2" "carol") = Some message ->
             msg_roomId message <> Some "r1").
  { intros message [= <-]. discriminate. }
  split; [exact Hother|].
  exact (message_touches_named_room_only Scenario.all_open Scenario.carol
           (Some (Scenario.join_room "r2" "carol")) Scenario.two "r1" Hother).
Defined.

(** X15.  Only a join-room message adds: on a table the server can reach,
    after any other event (a relay, a leave-room, an unknown or unparsed
    frame, a close) every participant of every room was a participant of
    that room before. *)
Theorem only_join_adds (i : Input) (rooms : Rooms) (roomId : string)
    (e : string * RoomParticipant) :
  reachable rooms ->
  is_join i = false ->
  In e (room_now roomId (table (handle i rooms))) ->
  In e (room_now roomId rooms).
Proof.
  intros Hreach Hjoin. apply reachable_wf in Hreach as Hwf.
  destruct i as [rs [s [message|]|s]]; unfold handle, is_join in *;
    cbn [fst snd] in *.
  - rewrite onMessage_parsed.
    destruct (handleMessage_table rs s message rooms)
      as [->|(r & room & room' & Hr & Hnow & [[Htype _]|(Hget & Hsub & Htable)])];
      [auto| |].
    { rewrite Htype in Hjoin. discriminate. }
    destruct (String.eqb_spec roomId r) as [->|Hne].
    + rewrite Hnow. destruct Htable as [->|[-> ->]].
      * rewrite room_now_listed with (room := room') by apply get_set_same.
        apply Hsub.
      * unfold room_now at 1.
        now rewrite (get_delete_same r rooms (proj1 Hwf)).
    + unfold room_now.
      destruct Htable as [->|[_ ->]];
        [now rewrite get_set_other|now rewrite get_delete_other].
  - now rewrite onMessage_malformed.
  - rewrite (close_per_room rs s rooms roomId Hreach).
    destruct (find (socket_is s) (room_now roomId rooms)); [|auto].
    intros He. now apply In_others in He.
Qed.

Lemma only_join_adds_witness :
  reachable Scenario.two
  /\ is_join (Scenario.says Scenario.bob Scenario.leave_bob) = false
  /\ In (Scenario.member Scenario.alice "alice")
        (room_now "r1" (table (handle (Scenario.says Scenario.bob Scenario.leave_bob)
                                 Scenario.two)))
  /\ In (Scenario.member Scenario.alice "alice") (room_now "r1" Scenario.two).
Proof.
  assert (Hin : In (Scenario.member Scenario.alice "alice")
                   (room_now "r1"
                      (table (handle (Scenario.says Scenario.bob Scenario.leave_bob)
                                Scenario.two))))
    by (left; reflexivity).
  split; [exact reachable_two|split; [reflexivity|split; [exact Hin|]]].
  exact (only_join_adds (Scenario.says Scenario.bob Scenario.leave_bob)
           Scenario.two "r1" (Scenario.member Scenario.alice "alice")
           reachable_two eq_refl Hin).
Defined.

(** X16.  A leave-room is not tied to its sender: on a table the server can
    reach, a leave-room that names a member of a listed room removes that
    member and announces it to the others, whatever connection the message
    comes from. *)
Theorem leave_removes_named_user
    (rs : WebSocket -> ReadyState) (s : WebSocket) (message : WebRTCMessage)
    (roomId u : string) (rooms : Rooms) (room : Room) :
  reachable rooms ->
  msg_type message = "leave-room" ->
  msg_roomId message = Some roomId ->
  msg_userId message = Some u -> u <> "" ->
  JsMap.get roomId rooms = Some room ->
  room_now roomId (table (onMessage rs s (Some message) rooms))
  = JsMap.others u room
  /\ sent (onMessage rs s (Some message) rooms)
     = deliver (UserLeft u (JsMap.size (JsMap.others u room)))
               (open_members rs (JsMap.others u room)).
Proof.
  intros Hreach Htype Hroom Huser Huid Hget.
  apply reachable_wf in Hreach as Hwf.
  destruct (in_split _ _ (get_In _ _ _ Hget)) as (before & after_ & Hsplit).
  revert Hwf Hget. rewrite Hsplit. intros Hwf Hget.
  assert (Hleaver : leaver s message (before ++ (roomId, room) :: after_) = u).
  { unfold leaver. rewrite Huser.
    now rewrite (proj2 (present_Some (Some u) u) (conj eq_refl Huid)). }
  rewrite (leave_of_member rs s before roomId room after_ u message
             Hwf Htype Hroom Hleaver).
  cbn [table sent done]. split; [|reflexivity].
  destruct (wf_split _ _ _ _ Hwf) as (_ & _ & Hnb & Hna & _).
  unfold room_now. rewrite (get_after_removal roomId _ before after_ Hnb Hna).
  destruct (Nat.eqb_spec (JsMap.size (JsMap.others u room)) 0) as [E|_];
    [symmetry; now apply size_zero_nil|reflexivity].
Qed.

Lemma leave_removes_named_user_witness :
  reachable Scenario.two
  /\ msg_type Scenario.leave_bob = "leave-room"
  /\ msg_roomId Scenario.leave_bob = Some "r1"
  /\ msg_userId Scenario.leave_bob = Some "bob" /\ "bob" <> ""
  /\ JsMap.get "r1" Scenario.two
     = Some [Scenario.member Scenario.alice "alice"; Scenario.member Scenario.bob "bob"]
  /\ room_now "r1"
       (table (onMessage Scenario.all_open Scenario.alice (Some Scenario.leave_bob)
                 Scenario.two))
     = [Scenario.member Scenario.alice "alice"]
  /\ sent (onMessage Scenario.all_open Scenario.alice (Some Scenario.leave_bob)
             Scenario.two)
     = [(Scenario.alice, UserLeft "bob" 1)].
Proof.
  assert (Hu : "bob" <> "") by discriminate.
  destruct (leave_removes_named_user Scenario.all_open Scenario.alice
              Scenario.leave_bob "r1" "bob" Scenario.two _
              reachable_two eq_refl eq_refl eq_refl Hu eq_refl)
    as [Hroom Hsent].
  split; [exact reachable_two|]. split; [reflexivity|]. split; [reflexivity|].
  split; [reflexivity|]. split; [exact Hu|]. split; [reflexivity|].
  split; [exact Hroom|exact Hsent].
Defined.
